(** * VoxFetch-CESI: a shallow embedding of the capture pipeline

    The development follows the TypeScript sources of the repository:

    - [JS]           the fragments of the JavaScript runtime the program
                     relies on (strings of UTF-16 code units, the regular
                     expressions it uses, completions of awaited calls);
    - [Auth]         [helpers/authDetection.ts]  ([detectAuthFromCookies]);
    - [BookCheck]    [helpers/bookCheck.ts]      ([checkBookStatus]);
    - [Downloader]   the command line entry point ([downloadBook], the part
                     that determines the page count);
    - [PrintToPdf]   [utils/printToPdf.ts]       (render stabilisation,
                     page size and print scale);
    - [Credentials]  the obfuscated credential file ([encode], [decode]).

    All definitions come first; the facts proved about them follow. *)

From Stdlib Require Import ZArith NArith List String Ascii Bool Lia.
From Stdlib Require Floats Uint63.
Import ListNotations.

Set Warnings "-inexact-float".

(* ================================================================== *)
(** * Part I. Definitions                                              *)
(* ================================================================== *)

Module JS.

(** A JavaScript string is a sequence of UTF-16 code units. *)
Definition jsstring := list N.

(** Injection of an ASCII literal of the source text. *)
Definition str (s : string) : jsstring :=
  map N_of_ascii (list_ascii_of_string s).

(** Outcome of an awaited call: it resolves to a value or it rejects. *)
Inductive completion (A : Type) : Type :=
| Normal (a : A)
| Throw (reason : jsstring).
Arguments Normal {A} a.
Arguments Throw {A} reason.

(** [promise.catch(() => d)] *)
Definition catch {A} (c : completion A) (d : A) : A :=
  match c with Normal a => a | Throw _ => d end.

(** ** String primitives *)

Fixpoint isPrefix (p s : jsstring) : bool :=
  match p, s with
  | [], _ => true
  | _ :: _, [] => false
  | a :: p', b :: s' => (a =? b)%N && isPrefix p' s'
  end.

(** [search here s]: does [here] hold of some suffix of [s]?  This is the
    left-to-right scan shared by [includes] and by unanchored regular
    expressions. *)
Fixpoint search (here : jsstring -> bool) (s : jsstring) : bool :=
  here s || match s with [] => false | _ :: s' => search here s' end.

(** [s.startsWith(p)], [s.includes(p)], [s.slice(1)] *)
Definition startsWith (s p : jsstring) : bool := isPrefix p s.
Definition includes (s p : jsstring) : bool := search (isPrefix p) s.
Definition slice1 (s : jsstring) : jsstring := tl s.

(** [s.endsWith(p)] (used on the specification side only). *)
Definition endsWith (s p : jsstring) : bool := isPrefix (rev p) (rev s).

(** [s.toLowerCase()], code unit by code unit.  The table covers every code
    unit whose lower case lies in the Latin-1 range (A-Z, the Latin-1
    capitals, and U+0130, U+0178, U+1E9E, U+212A, U+212B); all other code
    units are left unchanged.  The needles this program looks for after
    lowering are Latin-1 lower case, so the omitted case pairs cannot change
    the outcome of those searches. *)
Definition lowerUnit (c : N) : jsstring :=
  (if (65 <=? c) && (c <=? 90) then [c + 32]
   else if (192 <=? c) && (c <=? 222) && negb (c =? 215) then [c + 32]
   else if c =? 304 then [105; 775]
   else if c =? 376 then [255]
   else if c =? 7838 then [223]
   else if c =? 8490 then [107]
   else if c =? 8491 then [229]
   else [c])%N.

Definition toLowerCase (s : jsstring) : jsstring := flat_map lowerUnit s.

(** White space and line terminators removed by [trim]. *)
Definition isWhiteSpace (c : N) : bool :=
  ((9 <=? c) && (c <=? 13) || (c =? 32) || (c =? 160) || (c =? 5760)
   || (8192 <=? c) && (c <=? 8202) || (c =? 8232) || (c =? 8233)
   || (c =? 8239) || (c =? 8287) || (c =? 12288) || (c =? 65279))%N.

Fixpoint trimStart (s : jsstring) : jsstring :=
  match s with
  | c :: s' => if isWhiteSpace c then trimStart s' else s
  | [] => []
  end.

Definition trim (s : jsstring) : jsstring :=
  rev (trimStart (rev (trimStart s))).

(** ** Regular expressions

    The expressions of the program are alternations of sequences of
    characters and character classes, possibly anchored at the start and
    possibly case-insensitive:
    [/^sfsessid/i], [/^_xpriv/i], [/posthog/i], [/visitor_unique/i],
    [/404|not[-_ ]found|error/i]. *)

Inductive atom : Type :=
| Chr (c : N)
| Cls (cs : list N).

Record RegExp : Type := {
  anchored : bool;
  ignoreCase : bool;
  branches : list (list atom)
}.

(** Canonicalize of the [i] flag without the [u] flag: a code unit is
    compared through its upper case, except that a code unit of 128 or more
    never canonicalizes to an ASCII one.  All pattern characters of the
    program are ASCII, for which this ASCII folding is exact. *)
Definition canonicalize (c : N) : N :=
  if (97 <=? c)%N && (c <=? 122)%N then (c - 32)%N else c.

Definition sameUnit (i : bool) (x y : N) : bool :=
  if i then (canonicalize x =? canonicalize y)%N else (x =? y)%N.

Definition atomMatches (i : bool) (a : atom) (c : N) : bool :=
  match a with
  | Chr x => sameUnit i x c
  | Cls cs => existsb (fun x => sameUnit i x c) cs
  end.

Fixpoint matchesAt (i : bool) (b : list atom) (s : jsstring) : bool :=
  match b, s with
  | [], _ => true
  | _ :: _, [] => false
  | a :: b', c :: s' => atomMatches i a c && matchesAt i b' s'
  end.

(** [r.test(s)] *)
Definition test (r : RegExp) (s : jsstring) : bool :=
  let here t := existsb (fun b => matchesAt (ignoreCase r) b t) (branches r) in
  if anchored r then here s else search here s.

Definition lit (s : string) : list atom := map Chr (str s).

End JS.

Module Auth.
Import JS.

(** The fields of a Playwright [Cookie] the detector reads, and its value. *)
Record Cookie : Type := {
  name : jsstring;
  value : jsstring;
  domain : jsstring
}.

Record AuthCheck : Type := {
  authenticated : bool;
  note : jsstring;
  matched : list jsstring
}.

Definition normalizeDomain (d : jsstring) : jsstring :=
  if startsWith d (str ".") then slice1 d else d.

(** [/^sfsessid/i], [/^_xpriv/i], [/posthog/i], [/visitor_unique/i] *)
Definition re_sfsessid : RegExp :=
  {| anchored := true; ignoreCase := true; branches := [lit "sfsessid"] |}.
Definition re_xpriv : RegExp :=
  {| anchored := true; ignoreCase := true; branches := [lit "_xpriv"] |}.
Definition re_posthog : RegExp :=
  {| anchored := false; ignoreCase := true; branches := [lit "posthog"] |}.
Definition re_visitor : RegExp :=
  {| anchored := false; ignoreCase := true;
     branches := [lit "visitor_unique"] |}.

(** The filter that selects the cookies of the platform ([svx]). *)
Definition onScholarvox (c : Cookie) : bool :=
  includes (normalizeDomain (domain c)) (str "scholarvox.com").

Definition isSessionCookie (c : Cookie) : bool := test re_sfsessid (name c).

(** [`${c.name}@${normalizeDomain(c.domain)}`] *)
Definition nameAtDomain (c : Cookie) : jsstring :=
  name c ++ str "@" ++ normalizeDomain (domain c).

(** The [for (const c of svx) if (...) matched.push(...)] loop. *)
Definition pushSessionCookies (svx : list Cookie) (matched : list jsstring)
  : list jsstring :=
  fold_left
    (fun m c => if isSessionCookie c then m ++ [nameAtDomain c] else m)
    svx matched.

(** [detectAuthFromCookies(all, debug)]; [debug] only drives console
    output and is left out. *)
Definition detectAuthFromCookies (all : list Cookie) : AuthCheck :=
  let svx := filter onScholarvox all in
  let matched : list jsstring := [] in
  let hasSession := existsb isSessionCookie svx in
  if hasSession then
    {| authenticated := true;
       note := str "Authenticated (SFSESSID on scholarvox).";
       matched := pushSessionCookies svx matched |}
  else
    let hasXpriv := existsb (fun c => test re_xpriv (name c)) svx in
    let hasPosthog := existsb (fun c => test re_posthog (name c)) svx in
    let hasVisitor := existsb (fun c => test re_visitor (name c)) svx in
    let authenticated := hasSession && (hasXpriv || hasPosthog || hasVisitor) in
    {| authenticated := authenticated;
       note := if authenticated
               then str "Authenticated via SFSESSID + signal."
               else str "Not authenticated: missing SFSESSID on scholarvox.com.";
       matched := matched |}.

(** The platform test as the specification words it: the domain, after
    stripping a single leading dot, equals [scholarvox.com] or ends with
    [.scholarvox.com]. *)
Definition spec_platformDomain (d : jsstring) : bool :=
  let n := normalizeDomain d in
  isPrefix n (str "scholarvox.com") && isPrefix (str "scholarvox.com") n
  || endsWith n (str ".scholarvox.com").

(** The test the program applies, in words: the domain, after stripping
    a single leading dot, contains [scholarvox.com] somewhere. *)
Definition containsScholarvox (d : jsstring) : Prop :=
  exists a b, normalizeDomain d = a ++ str "scholarvox.com" ++ b.

(** A name has the prefix [sfsessid] up to ASCII case, as the
    specification words it. *)
Definition spec_sessionName (n : jsstring) : Prop :=
  exists p rest,
    n = p ++ rest /\ map canonicalize p = map canonicalize (str "sfsessid").

End Auth.

Module BookCheck.
Import JS.

Inductive BookStatus : Type := FOUND | REMOVED | NOT_FOUND | AVAILABLE_SOON.

(** A Playwright [Response]; [ok()] holds for status 0 and 200..299. *)
Record Response : Type := { status : N }.

Definition ok (r : Response) : bool :=
  ((status r =? 0) || (200 <=? status r) && (status r <=? 299))%N.

(** What the browser answers to each call [checkBookStatus] makes on the
    page, in the order of the calls.  Each call is made at most once, so
    one field per call describes a run completely. *)
Record CatalogPage : Type := {
  (** [page.goto(catalogUrl, ...)]: rejects, or resolves to a response or
      to [null] *)
  goto : completion (option Response);
  (** [page.url()] *)
  url : jsstring;
  (** [page.locator(".removedFlag").first().isVisible()] *)
  removedFlag_isVisible : completion bool;
  (** [removedFlag.innerText()] *)
  removedFlag_innerText : completion jsstring;
  (** [page.locator("#pnl-notavail, .notAvailableBox").first().isVisible()] *)
  notAvail_isVisible : completion bool;
  (** [page.content()] *)
  content : completion jsstring;
  (** [titleLocator.textContent()], after the bounded wait; [None] is
      [null] *)
  title_textContent : completion (option jsstring)
}.

(** [/404|not[-_ ]found|error/i] *)
Definition re_errorRoute : RegExp :=
  {| anchored := false; ignoreCase := true;
     branches := [ lit "404";
                   lit "not" ++ [Cls (str "-_ ")] ++ lit "found";
                   lit "error" ] |}.

(** ["cet ouvrage sera bientôt disponible"]; the o with circumflex is the
    code unit 244. *)
Definition availableSoonText : jsstring :=
  str "cet ouvrage sera bient" ++ [244%N] ++ str "t disponible".

Definition removedMessage : jsstring := str "cet ouvrage n'est plus disponible".

(** [checkBookStatus(page, docid, timeoutMs)].  The model starts at the
    navigation to the catalog URL of [docid]; the answers of the browser
    are those of [page]. *)
Definition checkBookStatus (page : CatalogPage) : completion BookStatus :=
  let resp := catch (goto page) None in
  match resp with
  | None => Normal NOT_FOUND
  | Some r =>
    if negb (ok r) then Normal NOT_FOUND else
    let finalUrl := url page in
    if test re_errorRoute finalUrl then Normal NOT_FOUND else
    let removedVisible := catch (removedFlag_isVisible page) false in
    if removedVisible then Normal REMOVED else
    let removedText :=
      if removedVisible
      then toLowerCase (catch (removedFlag_innerText page) [])
      else [] in
    if includes removedText removedMessage then Normal REMOVED else
    let notAvailVisible := catch (notAvail_isVisible page) false in
    if notAvailVisible then Normal REMOVED else
    match content page with
    | Throw e => Throw e
    | Normal pageContent =>
      if includes (toLowerCase pageContent) availableSoonText
      then Normal AVAILABLE_SOON
      else
        let titleText :=
          match catch (title_textContent page) (Some []) with
          | Some t => trim t
          | None => []
          end in
        if (0 <? List.length titleText)%nat then Normal FOUND
        else Normal NOT_FOUND
    end
  end.

(** The capitalised message as the page shows it. *)
Definition availableSoonMessage : jsstring :=
  str "Cet ouvrage sera bient" ++ [244%N] ++ str "t disponible".

End BookCheck.

Module Downloader.
Import JS.

(** Browser operations of [downloadBook] between the creation of the
    iframe page and the message that the reader is loaded. *)
Inductive event : Type :=
| NewPage          (* context.newPage() and setViewportSize *)
| Goto             (* iframePage.goto(iframeUrl, ...) and the 3s wait *)
| CountPages (n : N)  (* the evaluate that counts #page-container children *)
| ClosePage        (* iframePage.close() *)
| Log (msg : jsstring).

(** The reader as the browser shows it: the outcome of the [k]-th
    navigation to the iframe URL, and the outcome of the counting
    [evaluate] on the page that navigation loaded (it rejects, or it
    returns the number of children of the pagination container; an absent
    container counts 0). *)
Record Reader : Type := {
  navigation : nat -> completion unit;
  evaluateCount : nat -> completion N
}.

Record State : Type := {
  opened : nat;           (* iframe pages opened so far *)
  trace : list event
}.

(** State and exceptions: an exception keeps the state reached. *)
Definition M (A : Type) : Type := State -> completion A * State.

Definition ret {A} (a : A) : M A := fun s => (Normal a, s).

Definition bind {A B} (m : M A) (k : A -> M B) : M B :=
  fun s =>
    match m s with
    | (Normal a, s') => k a s'
    | (Throw e, s') => (Throw e, s')
    end.

Definition throw {A} (msg : jsstring) : M A := fun s => (Throw msg, s).

Definition emit (e : event) : M unit :=
  fun s => (Normal tt, {| opened := opened s; trace := trace s ++ [e] |}).

Notation "x <- m ;; k" := (bind m (fun x => k))
  (at level 61, m at next level, right associativity).
Notation "m ;; k" := (bind m (fun _ => k))
  (at level 61, right associativity).

(** [context.newPage()], [setViewportSize], [goto], [waitForTimeout(3000)] *)
Definition openIframePage (r : Reader) : M unit :=
  emit NewPage ;;
  (fun s =>
     let k := opened s in
     let s' := {| opened := S k; trace := trace s ++ [Goto] |} in
     match navigation r k with
     | Normal _ => (Normal tt, s')
     | Throw e => (Throw e, s')
     end).

(** [iframePage.evaluate(() => container ? container.children.length : 0)] *)
Definition countPages (r : Reader) : M N :=
  fun s =>
    match evaluateCount r (Nat.pred (opened s)) with
    | Normal n =>
      (Normal n, {| opened := opened s; trace := trace s ++ [CountPages n] |})
    | Throw e => (Throw e, s)
    end.

Definition zeroPagesWarning : jsstring :=
  str "Warning: Book appears to have 0 pages. Retrying...".

Definition stillZeroPages : jsstring :=
  str "Book still has 0 pages after retry. The book might be unavailable or there's an access issue.".

(** The page-count part of [downloadBook]. *)
Definition loadTotalPages (r : Reader) : M N :=
  openIframePage r ;;
  totalPages <- countPages r ;;
  if (totalPages =? 0)%N then
    emit (Log zeroPagesWarning) ;;
    emit ClosePage ;;
    openIframePage r ;;
    totalPages <- countPages r ;;
    if (totalPages =? 0)%N then
      throw stillZeroPages
    else
      emit (Log (str "Retry successful!")) ;;
      ret totalPages
  else
    ret totalPages.

Definition initial : State := {| opened := 0; trace := [] |}.



End Downloader.

Module PrintToPdf.
Import JS.
Import Floats.

(** ** Numbers

    JavaScript numbers are binary64 floats.  Attributes that the DOM types
    as integers ([naturalWidth], [canvas.width], [innerWidth], the bytes of
    an [ImageData]) are kept as integers; [num] is their value as a
    JavaScript number (exact below 2^53; DOM integers are below 2^32). *)
Definition num (z : Z) : float := PrimFloat.of_uint63 (Uint63.of_Z z).

(** [Math.round]: the nearest integer, ties towards positive infinity;
    NaN, infinities and zeros are returned unchanged, and a negative
    argument that rounds to zero gives [-0].  Computed exactly from the
    mantissa and exponent. *)
Definition Math_round (x : float) : float :=
  match Prim2SF x with
  | S754_finite s m e =>
    if (0 <=? e)%Z then x
    else
      let d := (2 ^ (- e))%Z in
      let v := if s then Z.neg m else Z.pos m in
      let n := ((2 * v + d) / (2 * d))%Z in
      if (n =? 0)%Z then (if s then neg_zero else zero)
      else if (n <? 0)%Z then (- num (- n))%float
      else num n
  | _ => x
  end.

(** ** The document as one evaluation sees it *)

Record HTMLImageElement : Type := {
  complete : bool;
  naturalWidth : Z;
  naturalHeight : Z
}.

(** The four bytes [data[0..3]] of a 1x1 [ImageData]. *)
Record ImageData : Type := { red : N; green : N; blue : N; alpha : N }.

Record HTMLCanvasElement : Type := {
  (** [getContext("2d")] is not null *)
  context2d : bool;
  width : Z;
  height : Z;
  (** [ctx.getImageData(x, y, 1, 1).data]; it throws on a tainted canvas *)
  getImageData : Z -> Z -> completion ImageData
}.

Record DOMRect : Type := { rect_width : float; rect_height : float }.

Record HTMLDivElement : Type := {
  boundingClientRect : DOMRect;
  (** [getComputedStyle(div).backgroundImage] *)
  backgroundImage : jsstring
}.

Record Document : Type := {
  images : list HTMLImageElement;      (* in document order *)
  canvases : list HTMLCanvasElement;
  divs : list HTMLDivElement;
  (** first match of ['[class*="page"]'], ['[id*="page"]'],
      ["body > div:first-child"], with its bounding rectangle *)
  pageElement : option DOMRect;
  innerWidth : Z;
  innerHeight : Z
}.

(** ** Render stabilisation *)

Inductive Element : Type :=
| Img (img : HTMLImageElement)
| Canvas (cv : HTMLCanvasElement)
| Div (div : HTMLDivElement).

Inductive Kind : Type := KImg | KCanvas | KDiv.

(** A candidate [{el, area, kind}]; the [kind] tag always names the
    constructor of [el]. *)
Record Candidate : Type := { el : Element; area : float }.

Definition kind (c : Candidate) : Kind :=
  match el c with Img _ => KImg | Canvas _ => KCanvas | Div _ => KDiv end.

(** [area > 1500 * 1500] *)
Definition largeArea (a : float) : bool := (num 1500 * num 1500 <? a)%float.

Definition imageCandidates (imgs : list HTMLImageElement) : list Candidate :=
  flat_map
    (fun img =>
       let area := (num (naturalWidth img) * num (naturalHeight img))%float in
       if largeArea area then [{| el := Img img; area := area |}] else [])
    imgs.

Definition canvasCandidates (cvs : list HTMLCanvasElement) : list Candidate :=
  flat_map
    (fun cv =>
       let area := (num (width cv) * num (height cv))%float in
       if largeArea area then [{| el := Canvas cv; area := area |}] else [])
    cvs.

Definition divCandidates (ds : list HTMLDivElement) : list Candidate :=
  flat_map
    (fun div =>
       let r := boundingClientRect div in
       let area := (rect_width r * rect_height r)%float in
       if largeArea area
          && negb (Nat.eqb (List.length (backgroundImage div)) 0)
          && negb (isPrefix (backgroundImage div) (str "none")
                   && isPrefix (str "none") (backgroundImage div))
       then [{| el := Div div; area := area |}] else [])
    ds.

(** [candidates.sort((a, b) => b.area - a.area)]: the sort is stable, and
    [a] is moved behind [b] only when the comparator is positive. *)
Definition compareFn (a b : Candidate) : float := (area b - area a)%float.

Fixpoint insert (x : Candidate) (l : list Candidate) : list Candidate :=
  match l with
  | [] => [x]
  | y :: l' => if (0 <? compareFn x y)%float then y :: insert x l' else x :: l
  end.

Definition sort (l : list Candidate) : list Candidate := fold_right insert [] l.

(** [pickLargeCandidate()]: [candidates[0] || null] after sorting. *)
Definition pickLargeCandidate (doc : Document) : option Candidate :=
  let candidates :=
    imageCandidates (images doc) ++ canvasCandidates (canvases doc)
    ++ divCandidates (divs doc) in
  hd_error (sort candidates).

(** [d[3] > 0 && (d[0] < 250 || d[1] < 250 || d[2] < 250)] *)
Definition isColored (d : ImageData) : bool :=
  ((0 <? alpha d) && ((red d <? 250) || (green d <? 250) || (blue d <? 250)))%N.

(** The three sample points.  [w] and [h] are integers below 2^32, so the
    products [w * 0.25], [w * 0.5] and [w * 0.75] are exact in binary64 and
    [Math.floor] of them is the integer quotient. *)
Definition samples (w h : Z) : list (Z * Z) :=
  [ (w / 4, h / 4); (w / 2, h / 2); (3 * w / 4, 3 * h / 4) ]%Z.

(** The [for (const [sx, sy] of samples)] loop with its counter. *)
Fixpoint countColored (cv : HTMLCanvasElement) (pts : list (Z * Z))
    (colored : nat) : completion nat :=
  match pts with
  | [] => Normal colored
  | (sx, sy) :: rest =>
    match getImageData cv (Z.min (width cv - 1) sx) (Z.min (height cv - 1) sy)
    with
    | Throw e => Throw e
    | Normal d =>
      countColored cv rest (if isColored d then S colored else colored)
    end
  end.

Definition canvasHasNonWhitePixel (cv : HTMLCanvasElement) : completion bool :=
  if negb (context2d cv) || (width cv <? 10)%Z || (height cv <? 10)%Z
  then Normal false
  else
    let w := width cv in
    let h := height cv in
    match countColored cv (samples w h) 0 with
    | Throw e => Throw e
    | Normal colored => Normal (0 <? colored)%nat
    end.

(** The value the evaluation returns: [{ok: true, kind, width, height,
    source}] or [{ok: false, reason}]. *)
Inductive RenderInfo : Type :=
| Rendered (k : Kind) (w h : float) (source : jsstring)
| NotRendered (reason : jsstring).

(** The validation of the picked candidate in the body of the retry loop:
    [Some info] returns from the loop, [None] falls through to the sleep. *)
Definition validate (cand : Candidate) : completion (option RenderInfo) :=
  match el cand with
  | Img img =>
    if complete img && (10 <? naturalWidth img)%Z && (10 <? naturalHeight img)%Z
    then Normal (Some (Rendered KImg (num (naturalWidth img))
                         (num (naturalHeight img))
                         (str "image natural dimensions")))
    else Normal None
  | Canvas cv =>
    if (10 <? width cv)%Z && (10 <? height cv)%Z then
      match canvasHasNonWhitePixel cv with
      | Throw e => Throw e
      | Normal true =>
        Normal (Some (Rendered KCanvas (num (width cv)) (num (height cv))
                        (str "canvas pixels")))
      | Normal false => Normal None
      end
    else Normal None
  | Div div =>
    let r := boundingClientRect div in
    if ((10 <? rect_width r) && (10 <? rect_height r))%float
    then Normal (Some (Rendered KDiv (Math_round (rect_width r))
                         (Math_round (rect_height r))
                         (str "div background")))
    else Normal None
  end.

Definition timedOut : jsstring := str "timed out waiting for rendered page".

(** [let attempts = 30; while (attempts-- > 0) { ... await sleep(200) }].
    [world k] is the document as the [k]-th iteration finds it, whatever
    the scrolling and decoding of the earlier iterations did to it. *)
Fixpoint waitForRender (attempts : nat) (k : nat) (world : nat -> Document)
  : completion RenderInfo :=
  match attempts with
  | O => Normal (NotRendered timedOut)
  | S attempts' =>
    match pickLargeCandidate (world k) with
    | Some cand =>
      match validate cand with
      | Throw e => Throw e
      | Normal (Some info) => Normal info
      | Normal None => waitForRender attempts' (S k) world
      end
    | None => waitForRender attempts' (S k) world
    end
  end.

Definition renderInfo (world : nat -> Document) : completion RenderInfo :=
  waitForRender 30 0 world.

(** ** Page size and print scale *)

Record Dimensions : Type := {
  dim_width : float;
  dim_height : float;
  dim_source : jsstring
}.

(** [images.forEach]: the first image of strictly largest natural area,
    starting from [maxArea = 0] and [largestImage = null]. *)
Definition largestImage (imgs : list HTMLImageElement)
  : option HTMLImageElement :=
  snd (fold_left
         (fun (acc : float * option HTMLImageElement) img =>
            let area := (num (naturalWidth img) * num (naturalHeight img))%float in
            if (fst acc <? area)%float then (area, Some img) else acc)
         imgs (num 0, None)).

Definition pageDimensions (doc : Document) : Dimensions :=
  let fromImage :=
    match largestImage (images doc) with
    | Some imgEl =>
      if (0 <? naturalWidth imgEl)%Z && (0 <? naturalHeight imgEl)%Z
      then Some {| dim_width := num (naturalWidth imgEl);
                   dim_height := num (naturalHeight imgEl);
                   dim_source := str "image natural dimensions" |}
      else None
    | None => None
    end in
  match fromImage with
  | Some d => d
  | None =>
    match pageElement doc with
    | Some rect => {| dim_width := rect_width rect;
                      dim_height := rect_height rect;
                      dim_source := str "page element" |}
    | None => {| dim_width := num (innerWidth doc);
                 dim_height := num (innerHeight doc);
                 dim_source := str "window" |}
    end
  end.

(** The argument of [iframePage.pdf]; [pdf_width] and [pdf_height] are the
    numbers in front of the unit [in], margins are in millimetres. *)
Record PdfOptions : Type := {
  pdf_width : float;
  pdf_height : float;
  printBackground : bool;
  margin_top : float;
  margin_right : float;
  margin_bottom : float;
  margin_left : float;
  pdf_scale : float;
  preferCSSPageSize : bool
}.

Definition referenceWidth : float := 1080%float.
Definition referenceScale : float := 0.4%float.

Definition pageWidthInches (d : Dimensions) : float := (dim_width d / 96)%float.
Definition pageHeightInches (d : Dimensions) : float := (dim_height d / 96)%float.

Definition autoScale (d : Dimensions) : float :=
  (referenceScale * (dim_width d / referenceWidth))%float.

(** [scale !== 0.4 ? scale : autoScale] *)
Definition finalScale (scale : float) (d : Dimensions) : float :=
  if negb (scale =? 0.4)%float then scale else autoScale d.

(** The options [printScholarVoxPageToPDF] prints with; an omitted [scale]
    argument takes the default [0.4]. *)
Definition pdfOptions (scale : option float) (d : Dimensions) : PdfOptions :=
  let scale := match scale with Some s => s | None => 0.4%float end in
  {| pdf_width := pageWidthInches d;
     pdf_height := pageHeightInches d;
     printBackground := true;
     margin_top := 0; margin_right := 0; margin_bottom := 0; margin_left := 0;
     pdf_scale := finalScale scale d;
     preferCSSPageSize := false |}.

Definition printOptions (scale : option float) (doc : Document) : PdfOptions :=
  pdfOptions scale (pageDimensions doc).

(** ** The canvas check as the specification words it *)

(** A pixel is blank when it is transparent or near-white. *)
Definition blankPixel (d : ImageData) : Prop :=
  (alpha d = 0 \/ (250 <= red d /\ 250 <= green d /\ 250 <= blue d))%N.

(** The pixels at 25%/25%, 50%/50% and 75%/75% of the canvas can be read
    and are blank. *)
Definition sampledBlank (cv : HTMLCanvasElement) : Prop :=
  forall x y,
    In (x, y) [ (width cv / 4, height cv / 4); (width cv / 2, height cv / 2);
                (3 * width cv / 4, 3 * height cv / 4) ]%Z ->
    exists d, getImageData cv x y = Normal d /\ blankPixel d.

(** The candidate of an iteration is a canvas whose samples are blank. *)
Definition picksBlankCanvas (doc : Document) : Prop :=
  exists cv a,
    pickLargeCandidate doc = Some {| el := Canvas cv; area := a |}
    /\ sampledBlank cv.

End PrintToPdf.

Module Credentials.
Import JS.
Local Open Scope N_scope.

(** ** [Buffer.from(s)] and [buf.toString()]: UTF-8 *)

Definition isHighSurrogate (c : N) : bool := (55296 <=? c) && (c <=? 56319).
Definition isLowSurrogate (c : N) : bool := (56320 <=? c) && (c <=? 57343).

(** U+FFFD in UTF-8 *)
Definition replacementBytes : list N := [239; 191; 189].

(** UTF-8 bytes of a string; a lone surrogate is written as U+FFFD. *)
Fixpoint utf8Encode (s : jsstring) : list N :=
  match s with
  | [] => []
  | c :: s' =>
    if c <? 128 then c :: utf8Encode s'
    else if c <? 2048 then
      [192 + c / 64; 128 + c mod 64] ++ utf8Encode s'
    else if isHighSurrogate c then
      match s' with
      | d :: s'' =>
        if isLowSurrogate d then
          let cp := 65536 + (c - 55296) * 1024 + (d - 56320) in
          [240 + cp / 262144; 128 + (cp / 4096) mod 64;
           128 + (cp / 64) mod 64; 128 + cp mod 64] ++ utf8Encode s''
        else replacementBytes ++ utf8Encode s'
      | [] => replacementBytes
      end
    else if isLowSurrogate c then replacementBytes ++ utf8Encode s'
    else
      [224 + c / 4096; 128 + (c / 64) mod 64; 128 + c mod 64]
      ++ utf8Encode s'
  end.

Definition isContinuation (b : N) : bool := (128 <=? b) && (b <=? 191).

(** Second byte allowed after a three-byte or four-byte lead. *)
Definition secondOf3 (b0 b1 : N) : bool :=
  if b0 =? 224 then (160 <=? b1) && (b1 <=? 191)
  else if b0 =? 237 then (128 <=? b1) && (b1 <=? 159)
  else isContinuation b1.

Definition secondOf4 (b0 b1 : N) : bool :=
  if b0 =? 240 then (144 <=? b1) && (b1 <=? 191)
  else if b0 =? 244 then (128 <=? b1) && (b1 <=? 143)
  else isContinuation b1.

(** Code units of a code point. *)
Definition unitsOf (cp : N) : jsstring :=
  if cp <? 65536 then [cp]
  else [55296 + (cp - 65536) / 1024; 56320 + (cp - 65536) mod 1024].

(** The string of UTF-8 bytes; every maximal ill-formed part decodes to
    U+FFFD (65533). *)
Fixpoint utf8Decode (bs : list N) : jsstring :=
  match bs with
  | [] => []
  | b0 :: r0 =>
    if b0 <? 128 then b0 :: utf8Decode r0
    else if (194 <=? b0) && (b0 <=? 223) then
      match r0 with
      | b1 :: r1 =>
        if isContinuation b1
        then ((b0 - 192) * 64 + (b1 - 128)) :: utf8Decode r1
        else 65533 :: utf8Decode r0
      | [] => [65533]
      end
    else if (224 <=? b0) && (b0 <=? 239) then
      match r0 with
      | b1 :: r1 =>
        if secondOf3 b0 b1 then
          match r1 with
          | b2 :: r2 =>
            if isContinuation b2
            then ((b0 - 224) * 4096 + (b1 - 128) * 64 + (b2 - 128))
                 :: utf8Decode r2
            else 65533 :: utf8Decode r1
          | [] => [65533]
          end
        else 65533 :: utf8Decode r0
      | [] => [65533]
      end
    else if (240 <=? b0) && (b0 <=? 244) then
      match r0 with
      | b1 :: r1 =>
        if secondOf4 b0 b1 then
          match r1 with
          | b2 :: r2 =>
            if isContinuation b2 then
              match r2 with
              | b3 :: r3 =>
                if isContinuation b3
                then unitsOf ((b0 - 240) * 262144 + (b1 - 128) * 4096
                              + (b2 - 128) * 64 + (b3 - 128))
                     ++ utf8Decode r3
                else 65533 :: utf8Decode r2
              | [] => [65533]
              end
            else 65533 :: utf8Decode r1
          | [] => [65533]
          end
        else 65533 :: utf8Decode r0
      | [] => [65533]
      end
    else 65533 :: utf8Decode r0
  end.

(** ** [buf.toString("base64")] and [Buffer.from(s, "base64")] *)

Definition alphabet : jsstring :=
  str "ABCDEFGHIJKLMNOPQRSTUVWXYZabcdefghijklmnopqrstuvwxyz0123456789+/".

Definition base64Char (sextet : N) : N := nth (N.to_nat sextet) alphabet 0.

Definition padding : N := 61.

Fixpoint base64Encode (bs : list N) : jsstring :=
  match bs with
  | [] => []
  | [a] => [base64Char (a / 4); base64Char (a mod 4 * 16); padding; padding]
  | [a; b] =>
    [base64Char (a / 4); base64Char (a mod 4 * 16 + b / 16);
     base64Char (b mod 16 * 4); padding]
  | a :: b :: c :: rest =>
    [base64Char (a / 4); base64Char (a mod 4 * 16 + b / 16);
     base64Char (b mod 16 * 4 + c / 64); base64Char (c mod 64)]
    ++ base64Encode rest
  end.

(** The value of a character of the standard or URL-safe alphabet. *)
Definition unbase64 (c : N) : option N :=
  if (65 <=? c) && (c <=? 90) then Some (c - 65)
  else if (97 <=? c) && (c <=? 122) then Some (c - 97 + 26)
  else if (48 <=? c) && (c <=? 57) then Some (c - 48 + 52)
  else if (c =? 43) || (c =? 45) then Some 62
  else if (c =? 47) || (c =? 95) then Some 63
  else None.

(** The decoder of Node is lenient: characters outside the alphabet
    (padding, white space) carry no data and are skipped. *)
Definition sextets (s : jsstring) : list N :=
  flat_map (fun c => match unbase64 c with Some v => [v] | None => [] end) s.

Fixpoint bytesOfSextets (l : list N) : list N :=
  match l with
  | a :: b :: c :: d :: rest =>
    [a * 4 + b / 16; b mod 16 * 16 + c / 4; c mod 4 * 64 + d]
    ++ bytesOfSextets rest
  | [a; b; c] => [a * 4 + b / 16; b mod 16 * 16 + c / 4]
  | [a; b] => [a * 4 + b / 16]
  | _ => []
  end.

Definition base64Decode (s : jsstring) : list N := bytesOfSextets (sextets s).

(** ** The codec *)

Definition key : jsstring := str "voxfetch-cesi-2025".

(** [s.charCodeAt(i)]; out of range it is NaN, which [^] reads as 0. *)
Definition charCodeAt (s : jsstring) (i : nat) : N := nth i s 0.

(** [String.fromCharCode(n)] keeps the low 16 bits. *)
Definition fromCharCode (n : N) : N := n mod 65536.

(** The loop shared by [encode] and [decode]:
    [for (i = 0; i < text.length; i++)
       result += String.fromCharCode(text.charCodeAt(i) ^ key.charCodeAt(i % key.length))].
    [rest] is the part of [text] from index [i] on. *)
Fixpoint xorLoop (i : nat) (rest : jsstring) (result : jsstring) : jsstring :=
  match rest with
  | [] => result
  | c :: rest' =>
    xorLoop (S i) rest'
      (result ++ [fromCharCode
                    (N.lxor c (charCodeAt key (Nat.modulo i (List.length key))))])
  end.

Definition encode (text : jsstring) : jsstring :=
  let result := xorLoop 0 text [] in
  base64Encode (utf8Encode result).

Definition decode (encoded : jsstring) : jsstring :=
  let text := utf8Decode (base64Decode encoded) in
  xorLoop 0 text [].

(** ** The credential file *)

Record Credentials : Type := { email : jsstring; password : jsstring }.

(** The JSON object [{email, password}] that the file holds. *)
Record StoredData : Type := { data_email : jsstring; data_password : jsstring }.

(** What [saveCredentials] writes. *)
Definition saveCredentials (email password : jsstring) : StoredData :=
  {| data_email := encode email; data_password := encode password |}.

(** What [loadCredentials] returns for the file contents ([None]: the file
    cannot be read or parsed). *)
Definition loadCredentials (file : option StoredData) : option Credentials :=
  match file with
  | Some parsed =>
    Some {| email := decode (data_email parsed);
            password := decode (data_password parsed) |}
  | None => None
  end.

(** Strings of ASCII characters. *)
Definition isAscii (s : jsstring) : Prop := Forall (fun c => c < 128) s.

End Credentials.

Module Validation.
Import JS BookCheck.

(** [validateBook(docid)] of the command line entry point: the verdict and
    the message the spinner stops with.  The browser it launches answers
    as [page]; an exception of the probe is caught and gives [false]
    without a message. *)
Definition validateBook (page : CatalogPage) : bool * jsstring :=
  match checkBookStatus page with
  | Normal FOUND => (true, str "Book ID is valid.")
  | Normal REMOVED =>
    (false, str "Error: This book has been removed or is no longer available.")
  | Normal AVAILABLE_SOON =>
    (false, str "Error: This book will be available soon but is not currently accessible.")
  | Normal NOT_FOUND =>
    (false, str "Error: Book ID not found. Please check the ID and try again.")
  | Throw _ => (false, [])
  end.

(** The observations that make the probe answer FOUND. *)
Definition foundConditions (page : CatalogPage) : Prop :=
  (exists r, goto page = Normal (Some r) /\ ok r = true)
  /\ test re_errorRoute (url page) = false
  /\ removedFlag_isVisible page <> Normal true
  /\ notAvail_isVisible page <> Normal true
  /\ (exists pageContent,
        content page = Normal pageContent
        /\ includes (toLowerCase pageContent) availableSoonText = false)
  /\ (exists t ch,
        title_textContent page = Normal (Some t)
        /\ In ch t /\ isWhiteSpace ch = false).

(** The spellings of an error route that the final URL is searched for,
    up to ASCII case. *)
Definition errorRouteWords : list jsstring :=
  [str "404"; str "error"; str "not-found"; str "not_found"; str "not found"].

End Validation.

Module AuthPolling.
Import JS Auth.

(** [waitAndDetectAuth(page, opts)].  The loop runs while the clock stays
    below the time-out; [polls] are the cookie jars its iterations read, in
    order, and [finalCookies] is the jar read after the loop. *)
Fixpoint waitAndDetectAuth (polls : list (list Cookie))
    (finalCookies : list Cookie) : AuthCheck :=
  match polls with
  | cookies :: later =>
    let res := detectAuthFromCookies cookies in
    if authenticated res then res else waitAndDetectAuth later finalCookies
  | [] => detectAuthFromCookies finalCookies
  end.

(** [performInteractiveLogin(page, docid, opts)] after the login entry is
    opened: each round of its loop is one [waitAndDetectAuth], and a last
    one follows the loop.  [rounds] are the jars read by the rounds that
    took place. *)
Fixpoint performInteractiveLogin
    (rounds : list (list (list Cookie) * list Cookie))
    (lastPolls : list (list Cookie)) (lastFinal : list Cookie) : AuthCheck :=
  match rounds with
  | (polls, finalCookies) :: later =>
    let auth := waitAndDetectAuth polls finalCookies in
    if authenticated auth then auth
    else performInteractiveLogin later lastPolls lastFinal
  | [] => waitAndDetectAuth lastPolls lastFinal
  end.

(** A session cookie of the platform, as the detector tests it. *)
Definition isPlatformSession (c : Cookie) : bool :=
  onScholarvox c && isSessionCookie c.

(** Does the detector answer authenticated on this jar? *)
Definition jarAuthenticates (cookies : list Cookie) : bool :=
  authenticated (detectAuthFromCookies cookies).

(** All jars a login run reads, in the order it reads them. *)
Definition jarsOf (rounds : list (list (list Cookie) * list Cookie))
    (lastPolls : list (list Cookie)) (lastFinal : list Cookie)
  : list (list Cookie) :=
  flat_map (fun r => fst r ++ [snd r]) rounds ++ lastPolls ++ [lastFinal].

End AuthPolling.

Module PageCapture.
Import JS PrintToPdf.
Import Floats.

(** ** Isolation of one page ([pageNumber] given) *)

(** The inline style properties the isolation step writes. *)
Record Style : Type := { display : jsstring; visibility : jsstring }.

(** [children.forEach((child, index) => ...)] with
    [targetIndex = targetPage - 1]: the target is shown, every other child
    is hidden. *)
Fixpoint hideOthers (targetIndex index : Z) (children : list Style)
  : list Style :=
  match children with
  | [] => []
  | el :: rest =>
    (if (index =? targetIndex)%Z
     then {| display := str "block"; visibility := str "visible" |}
     else {| display := str "none"; visibility := visibility el |})
    :: hideOthers targetIndex (index + 1) rest
  end.

(** The second evaluation of the isolation step on the children of
    [#page-container]; without the container nothing is changed. *)
Definition isolatePage (targetPage : Z) (container : option (list Style))
  : option (list Style) :=
  match container with
  | None => None
  | Some children => Some (hideOthers (targetPage - 1) 0 children)
  end.

(** ** Render stabilisation: one iteration that goes on to the next *)

Definition fallsThrough (doc : Document) : Prop :=
  match pickLargeCandidate doc with
  | None => True
  | Some cand => validate cand = Normal None
  end.

(** All candidates of a document, in the order they are collected. *)
Definition candidatesOf (doc : Document) : list Candidate :=
  imageCandidates (images doc) ++ canvasCandidates (canvases doc)
  ++ divCandidates (divs doc).

(** ** The page size of [downloadBook] *)

(** [dims] of [downloadBook]: the largest image with its natural size, or
    the reference format 1080x1332. *)
Definition downloadDims (doc : Document) : float * float :=
  match largestImage (images doc) with
  | Some imgEl =>
    if (0 <? naturalWidth imgEl)%Z && (0 <? naturalHeight imgEl)%Z
    then (num (naturalWidth imgEl), num (naturalHeight imgEl))
    else (1080%float, 1332%float)
  | None => (1080%float, 1332%float)
  end.

(** The options [downloadBook] prints the whole book with. *)
Definition downloadPdfOptions (doc : Document) : PdfOptions :=
  let dims := downloadDims doc in
  let widthInches := (fst dims / 96)%float in
  let heightInches := (snd dims / 96)%float in
  let scale := (0.4 * (fst dims / 1080))%float in
  {| pdf_width := widthInches;
     pdf_height := heightInches;
     printBackground := true;
     margin_top := 0; margin_right := 0; margin_bottom := 0; margin_left := 0;
     pdf_scale := scale;
     preferCSSPageSize := false |}.

End PageCapture.

Module Unicode.
Import JS Credentials.
Local Open Scope N_scope.

(** A string is well formed when every code unit is below 65536 and
    surrogates only occur as a high one followed by a low one. *)
Fixpoint wellFormed (s : jsstring) : bool :=
  match s with
  | [] => true
  | c :: s' =>
    if isHighSurrogate c then
      match s' with
      | d :: s'' => isLowSurrogate d && wellFormed s''
      | [] => false
      end
    else negb (isLowSurrogate c) && (c <? 65536) && wellFormed s'
  end.

(** A character of Base64 text: of the alphabet, or the padding. *)
Definition isBase64Text (c : N) : bool :=
  existsb (N.eqb c) alphabet || (c =? padding).

End Unicode.

Module BookMeta.
Import JS.

(** What the catalog page shows to [getBookTitle]: the outcome of the
    navigation and the [textContent] of the first match of each selector
    ([None]: no match, or a null text). *)
Record TitlePage : Type := {
  goto : completion unit;
  titleH2 : option jsstring;        (* ".title h2" *)
  bookTitleClass : option jsstring; (* ".book-title" *)
  mainH1 : option jsstring          (* "main h1, .content h1, .book-info h1" *)
}.

(** [el?.textContent?.trim()] when it is truthy. *)
Definition trimmedText (text : option jsstring) : option jsstring :=
  match text with
  | Some t => match trim t with [] => None | t' => Some t' end
  | None => None
  end.

(** The evaluation that picks the title, most specific selector first. *)
Definition titleText (page : TitlePage) : option jsstring :=
  match trimmedText (titleH2 page) with
  | Some t => Some t
  | None =>
    match trimmedText (bookTitleClass page) with
    | Some t => Some t
    | None => trimmedText (mainH1 page)
    end
  end.

Definition hyphen : N := 45.

(** The characters removed from a title: the angle brackets, the colon,
    the double quote, the slash, the backslash, the bar, the question mark
    and the star. *)
Definition isInvalidFilenameChar (c : N) : bool :=
  existsb (N.eqb c) [60; 62; 58; 34; 47; 92; 124; 63; 42]%N.

(** The first [replace]: these characters are deleted. *)
Definition removeInvalid (s : jsstring) : jsstring :=
  filter (fun c => negb (isInvalidFilenameChar c)) s.

(** The second [replace], of [/\s+/g] by a hyphen: every maximal run of white space becomes one
    hyphen; [inRun] tells that the previous character was white space. *)
Fixpoint spacesToHyphen (inRun : bool) (s : jsstring) : jsstring :=
  match s with
  | [] => []
  | c :: s' =>
    if isWhiteSpace c
    then (if inRun then [] else [hyphen]) ++ spacesToHyphen true s'
    else c :: spacesToHyphen false s'
  end.

(** The third [replace], of [/-+/g] by a hyphen: every maximal run of
    hyphens becomes one. *)
Fixpoint collapseHyphens (inRun : bool) (s : jsstring) : jsstring :=
  match s with
  | [] => []
  | c :: s' =>
    if (c =? hyphen)%N
    then (if inRun then [] else [hyphen]) ++ collapseHyphens true s'
    else c :: collapseHyphens false s'
  end.

(** The fourth [replace], of [/^-|-$/g] by nothing: one hyphen less at the start, and one less at
    the end of what is left. *)
Definition stripLeading (s : jsstring) : jsstring :=
  match s with
  | c :: s' => if (c =? hyphen)%N then s' else s
  | [] => []
  end.

Fixpoint stripTrailing (s : jsstring) : jsstring :=
  match s with
  | [] => []
  | c :: s' =>
    match s' with
    | [] => if (c =? hyphen)%N then [] else [c]
    | _ :: _ => c :: stripTrailing s'
    end
  end.

Definition stripEnds (s : jsstring) : jsstring :=
  stripTrailing (stripLeading s).

(** [.substring(0, 100)] *)
Definition substring100 (s : jsstring) : jsstring := firstn 100 s.

(** The file name made of a title. *)
Definition sanitize (title : jsstring) : jsstring :=
  substring100
    (stripEnds (collapseHyphens false (spacesToHyphen false (removeInvalid title)))).

(** [getBookTitle(page, docid)] *)
Definition getBookTitle (page : TitlePage) : completion (option jsstring) :=
  match goto page with
  | Throw e => Throw e
  | Normal _ =>
    match titleText page with
    | Some t =>
      if (0 <? List.length t)%nat then Normal (Some (sanitize t))
      else Normal None
    | None => Normal None
    end
  end.

Definition startsWithHyphen (s : jsstring) : bool :=
  match s with d :: _ => (d =? hyphen)%N | [] => false end.

(** No two hyphens in a row. *)
Fixpoint noHyphenRun (s : jsstring) : bool :=
  match s with
  | c :: s' => negb ((c =? hyphen)%N && startsWithHyphen s') && noHyphenRun s'
  | [] => true
  end.

(** A character allowed in the file name. *)
Definition isNameChar (c : N) : bool :=
  negb (isInvalidFilenameChar c) && negb (isWhiteSpace c).

End BookMeta.

Module Orchestrator.
Import JS Downloader PrintToPdf PageCapture.


(** ** [downloadBook]

    The operations of a download, in the order of the source.  The model
    starts once the credentials are read and the browser is launched, both
    of which happen before the [try] block. *)
Inductive step : Type :=
| Launch                      (* chromium.launch, newContext, newPage *)
| Login                       (* loginCESI *)
| OpenReader                  (* page.goto(reader URL) and the 2s wait *)
| ReadIframeSrc               (* the evaluate that reads iframe.src *)
| Iframe (e : event)          (* the page-count part *)
| Scroll (i : N)              (* scrollIntoView of child i, 200ms wait *)
| LoadFonts
| ResetCss
| MeasureDims
| Pdf (o : PdfOptions)        (* iframePage.pdf(options) *)
| MkDir
| WriteFile
| Stat
| LogError (msg : jsstring)   (* console.error in the catch clause *)
| CloseBrowser.               (* browser.close() in the finally clause *)

(** What the browser and the file system answer during one download. *)
Record World : Type := {
  login : completion unit;
  readerGoto : completion unit;
  (** [iframe?.src || null] *)
  iframeSrc : completion (option jsstring);
  reader : Reader;
  scroll : N -> completion unit;
  fonts : completion unit;
  css : completion unit;
  (** the document as the evaluate that measures the page sees it *)
  dims : completion Document;
  pdf : completion unit;
  mkdir : completion unit;
  writeFile : completion unit;
  stat : completion unit
}.

(** Exceptions with a log of the steps taken. *)
Definition Run (A : Type) : Type := list step -> completion A * list step.

Definition done {A} (a : A) : Run A := fun t => (Normal a, t).

Definition andThen {A B} (m : Run A) (k : A -> Run B) : Run B :=
  fun t =>
    match m t with
    | (Normal a, t') => k a t'
    | (Throw e, t') => (Throw e, t')
    end.

Definition fail {A} (msg : jsstring) : Run A := fun t => (Throw msg, t).

(** One awaited call: it is logged, then it resolves or rejects. *)
Definition call {A} (s : step) (outcome : completion A) : Run A :=
  fun t => (outcome, t ++ [s]).

Notation "x <~ m ;> k" := (andThen m (fun x => k))
  (at level 61, m at next level, right associativity).
Notation "m ;> k" := (andThen m (fun _ => k))
  (at level 61, right associativity).

(** The page-count part, with its own steps logged as [Iframe] steps. *)
Definition countPagesOf (r : Reader) : Run N :=
  fun t =>
    let (result, s) := loadTotalPages r initial in
    (result, t ++ map Iframe (trace s)).

(** [for (let i = 0; i < totalPages; i++)]: [count] iterations are left,
    the next index is [i]. *)
Fixpoint scrollPages (w : World) (count : nat) (i : N) : Run unit :=
  match count with
  | O => done tt
  | S count' =>
    call (Scroll i) (scroll w i) ;>
    scrollPages w count' (i + 1)
  end.

(** The indices [i], [i + 1], ... of [count] pages. *)
Definition indices (count : nat) (i : N) : list N :=
  map (fun k => (i + N.of_nat k)%N) (seq 0 count).

(** The steps of the [try] block, as opposed to those of the launch,
    the [catch] and the [finally] clauses. *)
Definition isBodyStep (s : step) : bool :=
  match s with
  | Launch | LogError _ | CloseBrowser => false
  | _ => true
  end.

(** The body of the [try] block. *)
Definition downloadBody (w : World) : Run unit :=
  call Login (login w) ;>
  call OpenReader (readerGoto w) ;>
  iframeUrl <~ call ReadIframeSrc (iframeSrc w) ;>
  match iframeUrl with
  | None => fail (str "No iframe found!")
  | Some _ =>
    totalPages <~ countPagesOf (reader w) ;>
    scrollPages w (N.to_nat totalPages) 0 ;>
    call LoadFonts (fonts w) ;>
    call ResetCss (css w) ;>
    doc <~ call MeasureDims (dims w) ;>
    call (Pdf (downloadPdfOptions doc)) (pdf w) ;>
    call MkDir (mkdir w) ;>
    call WriteFile (writeFile w) ;>
    call Stat (stat w)
  end.

(** [try { body } catch (err) { console.error(...); throw err }
     finally { await browser.close() }] *)
Definition downloadBook (w : World) : completion unit * list step :=
  match downloadBody w [Launch] with
  | (Normal tt, t) => (Normal tt, t ++ [CloseBrowser])
  | (Throw e, t) => (Throw e, t ++ [LogError e; CloseBrowser])
  end.

End Orchestrator.

Module Prompt.
Import JS.

(** [a === b] on strings *)
Definition sameString (a b : jsstring) : bool :=
  if list_eq_dec N.eq_dec a b then true else false.

(** The outcome of the hidden prompt of [askQuestion] after the chunks
    received so far: it resolved, the process exited, or it is waiting for
    the next chunk with the characters kept so far. *)
Inductive outcome : Type :=
| Resolved (password : jsstring)
| Exited (code : Z)
| Waiting (password : jsstring).

Definition isEnter (c : jsstring) : bool :=
  sameString c [13%N] || sameString c [10%N].
Definition isInterrupt (c : jsstring) : bool := sameString c [3%N].
Definition isBackspace (c : jsstring) : bool :=
  sameString c [127%N] || sameString c [8%N].

(** [onData], called once for every chunk the terminal delivers;
    [password.slice(0, -1)] is [removelast]. *)
Fixpoint readPassword (chunks : list jsstring) (password : jsstring)
  : outcome :=
  match chunks with
  | [] => Waiting password
  | c :: later =>
    if isEnter c then Resolved password
    else if isInterrupt c then Exited 1
    else if isBackspace c then
      readPassword later
        (if (0 <? List.length password)%nat then removelast password
         else password)
    else readPassword later (password ++ c)
  end.

(** A chunk that is text: none of the control chunks. *)
Definition isText (c : jsstring) : bool :=
  negb (isEnter c) && negb (isInterrupt c) && negb (isBackspace c).

End Prompt.

(** Concrete inputs used to exercise the definitions. *)
Module Samples.
Import JS.

Definition sessionCookie : Auth.Cookie :=
  {| Auth.name := str "SFSESSID_univ"; Auth.value := str "3f9a";
     Auth.domain := str ".univ.scholarvox.com" |}.

Definition trackingCookies : list Auth.Cookie :=
  [ {| Auth.name := str "_xpriv"; Auth.value := str "1";
       Auth.domain := str ".scholarvox.com" |};
    {| Auth.name := str "ph_posthog"; Auth.value := str "x";
       Auth.domain := str "univ.scholarvox.com" |};
    {| Auth.name := str "visitor_unique"; Auth.value := str "y";
       Auth.domain := str "scholarvox.com" |} ].

(** A session cookie set by another site. *)
Definition strangerCookie : Auth.Cookie :=
  {| Auth.name := str "sfsessid"; Auth.value := str "0";
     Auth.domain := str "login.example.org" |}.

(** A session cookie whose domain merely contains the platform name. *)
Definition lookalikeCookie : Auth.Cookie :=
  {| Auth.name := str "sfsessid"; Auth.value := str "0";
     Auth.domain := str "scholarvox.com.example.org" |}.

(** A session cookie of a site whose name ends like the platform's. *)
Definition embeddedCookie : Auth.Cookie :=
  {| Auth.name := str "SFSESSID"; Auth.value := str "7c1e";
     Auth.domain := str ".notscholarvox.com" |}.

(** Catalog pages.  [removedPage]: the book was withdrawn but the page
    still shows its title. *)
Definition removedPage : BookCheck.CatalogPage :=
  {| BookCheck.goto := Normal (Some {| BookCheck.status := 200 |});
     BookCheck.url :=
       str "https://univ.scholarvox.com/catalog/book/docid/88812345";
     BookCheck.removedFlag_isVisible := Normal true;
     BookCheck.removedFlag_innerText :=
       Normal (str "Cet ouvrage n'est plus disponible");
     BookCheck.notAvail_isVisible := Normal false;
     BookCheck.content :=
       Normal (str "<html><body><h2>Ancien titre</h2></body></html>");
     BookCheck.title_textContent := Normal (Some (str " Ancien titre ")) |}.

(** A book announced but not yet readable, with its title shown. *)
Definition soonPage : BookCheck.CatalogPage :=
  {| BookCheck.goto := Normal (Some {| BookCheck.status := 200 |});
     BookCheck.url :=
       str "https://univ.scholarvox.com/catalog/book/docid/88812345";
     BookCheck.removedFlag_isVisible := Normal false;
     BookCheck.removedFlag_innerText := Throw (str "no element");
     BookCheck.notAvail_isVisible := Throw (str "detached");
     BookCheck.content :=
       Normal (str "<html><body><h2>Titre</h2><p>"
               ++ BookCheck.availableSoonMessage
               ++ str "</p></body></html>");
     BookCheck.title_textContent := Normal (Some (str "Titre")) |}.

(** The removed page served with status 500. *)
Definition removedPageServerError : BookCheck.CatalogPage :=
  {| BookCheck.goto := Normal (Some {| BookCheck.status := 500 |});
     BookCheck.url := BookCheck.url removedPage;
     BookCheck.removedFlag_isVisible := Normal true;
     BookCheck.removedFlag_innerText :=
       BookCheck.removedFlag_innerText removedPage;
     BookCheck.notAvail_isVisible := Normal false;
     BookCheck.content := BookCheck.content removedPage;
     BookCheck.title_textContent := BookCheck.title_textContent removedPage |}.

(** The removed page of a book whose identifier contains 404. *)
Definition removedPage404 : BookCheck.CatalogPage :=
  {| BookCheck.goto := Normal (Some {| BookCheck.status := 200 |});
     BookCheck.url :=
       str "https://univ.scholarvox.com/catalog/book/docid/88840412";
     BookCheck.removedFlag_isVisible := Normal true;
     BookCheck.removedFlag_innerText :=
       BookCheck.removedFlag_innerText removedPage;
     BookCheck.notAvail_isVisible := Normal false;
     BookCheck.content := BookCheck.content removedPage;
     BookCheck.title_textContent := BookCheck.title_textContent removedPage |}.

(** A page with a title whose navigation timed out. *)
Definition timedOutPage : BookCheck.CatalogPage :=
  {| BookCheck.goto := Throw (str "Timeout 15000ms exceeded");
     BookCheck.url := BookCheck.url removedPage;
     BookCheck.removedFlag_isVisible := Normal false;
     BookCheck.removedFlag_innerText := Throw (str "no element");
     BookCheck.notAvail_isVisible := Normal false;
     BookCheck.content := Normal (str "<html><body><h1>Titre</h1></body></html>");
     BookCheck.title_textContent := Normal (Some (str "Titre")) |}.



Definition readyReader : Downloader.Reader :=
  {| Downloader.navigation := fun _ => Normal tt;
     Downloader.evaluateCount := fun _ => Normal 312%N |}.

(** The reader loads, but its frame is gone when the pages are counted. *)
Definition detachedReader : Downloader.Reader :=
  {| Downloader.navigation := fun _ => Normal tt;
     Downloader.evaluateCount :=
       fun _ => Throw (str "Execution context was destroyed") |}.

(** Documents.  A page image of 1080x1332 pixels, and one twice as
    wide. *)
Definition pageImage (w h : Z) : PrintToPdf.HTMLImageElement :=
  {| PrintToPdf.complete := true;
     PrintToPdf.naturalWidth := w; PrintToPdf.naturalHeight := h |}.

Definition imageDocument (w h : Z) : PrintToPdf.Document :=
  {| PrintToPdf.images := [pageImage 16 16; pageImage w h; pageImage 32 32];
     PrintToPdf.canvases := [];
     PrintToPdf.divs := [];
     PrintToPdf.pageElement := None;
     PrintToPdf.innerWidth := 2800; PrintToPdf.innerHeight := 2100 |}.

Definition white : PrintToPdf.ImageData :=
  {| PrintToPdf.red := 255; PrintToPdf.green := 252; PrintToPdf.blue := 250;
     PrintToPdf.alpha := 255 |}.

Definition clear : PrintToPdf.ImageData :=
  {| PrintToPdf.red := 0; PrintToPdf.green := 0; PrintToPdf.blue := 0;
     PrintToPdf.alpha := 0 |}.

Definition ink : PrintToPdf.ImageData :=
  {| PrintToPdf.red := 20; PrintToPdf.green := 20; PrintToPdf.blue := 20;
     PrintToPdf.alpha := 255 |}.

(** A 2000x2600 placeholder canvas: white around a transparent centre. *)
Definition placeholderCanvas : PrintToPdf.HTMLCanvasElement :=
  {| PrintToPdf.context2d := true;
     PrintToPdf.width := 2000; PrintToPdf.height := 2600;
     PrintToPdf.getImageData :=
       fun x y => Normal (if (x =? 1000)%Z then clear else white) |}.

(** The same canvas once the page is drawn: ink at the centre. *)
Definition drawnCanvas : PrintToPdf.HTMLCanvasElement :=
  {| PrintToPdf.context2d := true;
     PrintToPdf.width := 2000; PrintToPdf.height := 2600;
     PrintToPdf.getImageData :=
       fun x y => Normal (if (x =? 1000)%Z then ink else white) |}.

Definition canvasDocument (cv : PrintToPdf.HTMLCanvasElement)
  : PrintToPdf.Document :=
  {| PrintToPdf.images := [pageImage 16 16];
     PrintToPdf.canvases := [cv];
     PrintToPdf.divs := [];
     PrintToPdf.pageElement := None;
     PrintToPdf.innerWidth := 2800; PrintToPdf.innerHeight := 2100 |}.

(** The page of an available book whose identifier contains 404. *)
Definition validPage404 : BookCheck.CatalogPage :=
  {| BookCheck.goto := Normal (Some {| BookCheck.status := 200 |});
     BookCheck.url :=
       str "https://univ.scholarvox.com/catalog/book/docid/88840412";
     BookCheck.removedFlag_isVisible := Normal false;
     BookCheck.removedFlag_innerText := Throw (str "no element");
     BookCheck.notAvail_isVisible := Normal false;
     BookCheck.content :=
       Normal (str "<html><body><h2>Analyse</h2></body></html>");
     BookCheck.title_textContent := Normal (Some (str "Analyse")) |}.


(** The children of the page container before isolation. *)
Definition fivePages : list PageCapture.Style :=
  repeat {| PageCapture.display := str "block";
            PageCapture.visibility := str "visible" |} 5.

End Samples.

(** A download in which every call succeeds, of a book of three pages. *)
Module Runs.
Import JS.

Definition threePages : Downloader.Reader :=
  {| Downloader.navigation := fun _ => Normal tt;
     Downloader.evaluateCount := fun _ => Normal 3%N |}.

Definition smooth : Orchestrator.World :=
  {| Orchestrator.login := Normal tt;
     Orchestrator.readerGoto := Normal tt;
     Orchestrator.iframeSrc :=
       Normal (Some (str "https://content.example/reader/index.html"));
     Orchestrator.reader := threePages;
     Orchestrator.scroll := fun _ => Normal tt;
     Orchestrator.fonts := Normal tt;
     Orchestrator.css := Normal tt;
     Orchestrator.dims := Normal (Samples.imageDocument 1080 1332);
     Orchestrator.pdf := Normal tt;
     Orchestrator.mkdir := Normal tt;
     Orchestrator.writeFile := Normal tt;
     Orchestrator.stat := Normal tt |}.

End Runs.

(* ================================================================== *)
(** * Part II. Facts                                                   *)
(* ================================================================== *)

Module JSFacts.
Import JS.

Lemma isPrefix_iff (p s : jsstring) :
  isPrefix p s = true <-> exists rest, s = p ++ rest.
Proof.
  revert s; induction p as [|a p IH]; intros s; simpl.
  - split; [intros _; now exists s | reflexivity].
  - destruct s as [|b s].
    + split; [discriminate | intros [rest H]; discriminate].
    + rewrite andb_true_iff, N.eqb_eq, IH. split.
      * intros [-> [rest ->]]. now exists rest.
      * intros [rest H]. injection H as -> ->. split; [reflexivity | now exists rest].
Qed.

Lemma search_iff (here : jsstring -> bool) (s : jsstring) :
  search here s = true <-> exists a b, s = a ++ b /\ here b = true.
Proof.
  induction s as [|c s IH]; simpl.
  - rewrite orb_false_r. split.
    + intros H. now exists [], [].
    + intros (a & b & E & H). symmetry in E.
      apply app_eq_nil in E as [_ ->]. exact H.
  - rewrite orb_true_iff, IH. split.
    + intros [H | (a & b & -> & H)].
      * now exists [], (c :: s).
      * now exists (c :: a), b.
    + intros ([|x a] & b & E & H); simpl in E.
      * left. now rewrite E.
      * right. injection E as _ ->. now exists a, b.
Qed.

Lemma includes_iff (s p : jsstring) :
  includes s p = true <-> exists a b, s = a ++ p ++ b.
Proof.
  unfold includes. rewrite search_iff. split.
  - intros (a & t & -> & H). apply isPrefix_iff in H as [b ->]. now exists a, b.
  - intros (a & b & ->). exists a, (p ++ b). split; [reflexivity|].
    apply isPrefix_iff. now exists b.
Qed.

Lemma endsWith_iff (s p : jsstring) :
  endsWith s p = true <-> exists a, s = a ++ p.
Proof.
  unfold endsWith. rewrite isPrefix_iff. split.
  - intros [rest H]. exists (rev rest).
    rewrite <- (rev_involutive s), H, rev_app_distr, rev_involutive.
    reflexivity.
  - intros [a ->]. exists (rev a). now rewrite rev_app_distr.
Qed.

(** Equality of strings through two prefix tests, as the program and the
    specification write it. *)
Lemma isPrefix_both (a b : jsstring) :
  isPrefix a b && isPrefix b a = true <-> a = b.
Proof.
  rewrite andb_true_iff, !isPrefix_iff. split.
  - intros [[r1 H1] [r2 H2]]. rewrite H1 in H2.
    rewrite <- app_assoc in H2.
    rewrite <- (app_nil_r a) in H2 at 1.
    apply app_inv_head in H2. symmetry in H2.
    apply app_eq_nil in H2 as [-> _]. now rewrite app_nil_r in H1.
  - intros ->. split; exists []; now rewrite app_nil_r.
Qed.

(** A case-insensitive literal matches exactly the strings that start with
    the literal up to ASCII case. *)
Lemma matchesAt_literal (p s : jsstring) :
  matchesAt true (map Chr p) s = true <->
  exists q rest, s = q ++ rest /\ map canonicalize q = map canonicalize p.
Proof.
  revert s; induction p as [|a p IH]; intros s; simpl.
  - split; [intros _; now exists [], s | reflexivity].
  - destruct s as [|c s].
    + split; [discriminate|].
      intros ([|x q] & rest & E & H); discriminate.
    + rewrite andb_true_iff, IH. unfold sameUnit. rewrite N.eqb_eq. split.
      * intros [Hc (q & rest & -> & Hq)]. exists (c :: q), rest.
        split; [reflexivity|]. simpl. now rewrite Hq, Hc.
      * intros ([|x q] & rest & E & H); [discriminate|].
        simpl in E, H. injection E as -> ->. injection H as Hx Hq.
        split; [now symmetry | now exists q, rest].
Qed.

Lemma toLowerCase_app (a b : jsstring) :
  toLowerCase (a ++ b) = toLowerCase a ++ toLowerCase b.
Proof. apply flat_map_app. Qed.

End JSFacts.

Module AuthFacts.
Import JS JSFacts Auth.

Lemma isSessionCookie_iff (c : Cookie) :
  isSessionCookie c = true <-> spec_sessionName (name c).
Proof.
  unfold isSessionCookie, test, spec_sessionName, re_sfsessid, lit.
  cbn [anchored ignoreCase branches existsb].
  rewrite orb_false_r. apply matchesAt_literal.
Qed.

Lemma pushSessionCookies_eq (svx : list Cookie) (m : list jsstring) :
  pushSessionCookies svx m = m ++ map nameAtDomain (filter isSessionCookie svx).
Proof.
  unfold pushSessionCookies. revert m.
  induction svx as [|c svx IH]; intros m; simpl.
  - now rewrite app_nil_r.
  - rewrite IH. destruct (isSessionCookie c); simpl.
    + now rewrite <- app_assoc.
    + reflexivity.
Qed.

Lemma filter_filter {A} (f g : A -> bool) (l : list A) :
  filter g (filter f l) = filter (fun x => f x && g x) l.
Proof.
  induction l as [|x l IH]; simpl; [reflexivity|].
  destruct (f x); simpl; [destruct (g x)|]; now rewrite IH.
Qed.

Lemma hasSession_iff (all : list Cookie) :
  existsb isSessionCookie (filter onScholarvox all) = true <->
  exists c, In c all /\ onScholarvox c = true /\ isSessionCookie c = true.
Proof.
  rewrite existsb_exists. split.
  - intros (c & Hin & Hs). apply filter_In in Hin as [Hin Hd]. now exists c.
  - intros (c & Hin & Hd & Hs). exists c. split; [|exact Hs].
    apply filter_In. now split.
Qed.

(** The two outcomes of the detector, by the session test alone. *)
Lemma detect_cases (all : list Cookie) :
  let svx := filter onScholarvox all in
  (existsb isSessionCookie svx = true /\
   authenticated (detectAuthFromCookies all) = true /\
   matched (detectAuthFromCookies all)
   = map nameAtDomain (filter isSessionCookie svx))
  \/
  (existsb isSessionCookie svx = false /\
   authenticated (detectAuthFromCookies all) = false /\
   matched (detectAuthFromCookies all) = []).
Proof.
  unfold detectAuthFromCookies.
  destruct (existsb isSessionCookie (filter onScholarvox all)) eqn:E; simpl.
  - left. repeat split. now rewrite pushSessionCookies_eq.
  - right. repeat split.
Qed.

(** The platform test of the specification implies the filter of the
    program: a suffix match is a substring match. *)
Lemma spec_platformDomain_onScholarvox (c : Cookie) :
  spec_platformDomain (domain c) = true -> onScholarvox c = true.
Proof.
  unfold spec_platformDomain, onScholarvox.
  intros H. apply orb_true_iff in H as [H | H]; apply includes_iff.
  - apply isPrefix_both in H. exists [], []. now rewrite H, app_nil_r.
  - apply endsWith_iff in H as [a Ha]. exists (a ++ str "."), [].
    rewrite Ha, app_nil_r, <- app_assoc. reflexivity.
Qed.

Lemma containsScholarvox_iff (c : Cookie) :
  containsScholarvox (domain c) <-> onScholarvox c = true.
Proof.
  unfold containsScholarvox, onScholarvox. now rewrite includes_iff.
Qed.

(** C3 (as amended). For every cookie list that holds a cookie whose name
    starts with [sfsessid] up to case and whose domain, after stripping a
    single leading dot, contains [scholarvox.com] (so, in particular, a
    cookie on [scholarvox.com] or on a domain ending in
    [.scholarvox.com]), the detector answers [authenticated = true]
    whatever the other cookies are; and [matched] lists, in the order of
    the list, the [name@domain] of exactly the cookies that pass both
    tests, those of look-alike domains included. *)
Theorem session_cookie_authenticates (all : list Cookie) :
  (exists c, In c all /\ spec_sessionName (name c)
             /\ (spec_platformDomain (domain c) = true
                 \/ containsScholarvox (domain c))) ->
  authenticated (detectAuthFromCookies all) = true
  /\ matched (detectAuthFromCookies all)
     = map nameAtDomain
         (filter (fun c => onScholarvox c && isSessionCookie c) all)
  /\ (forall m, In m (matched (detectAuthFromCookies all)) <->
        exists c, In c all /\ containsScholarvox (domain c)
                  /\ spec_sessionName (name c) /\ m = nameAtDomain c).
Proof.
  intros (c & Hin & Hs & Hd).
  assert (Hon : onScholarvox c = true).
  { destruct Hd as [Hd | Hd].
    - now apply spec_platformDomain_onScholarvox.
    - now apply containsScholarvox_iff. }
  assert (Hex : existsb isSessionCookie (filter onScholarvox all) = true).
  { apply hasSession_iff. exists c. now rewrite isSessionCookie_iff. }
  destruct (detect_cases all) as [(_ & Ha & Hm) | (Hno & _)];
    [|congruence].
  rewrite filter_filter in Hm. split; [exact Ha|]. split; [exact Hm|].
  intros m. rewrite Hm, in_map_iff. split.
  - intros (x & <- & Hx). apply filter_In in Hx as [Hx Hb].
    apply andb_true_iff in Hb as [Hb1 Hb2]. exists x.
    rewrite containsScholarvox_iff, <- isSessionCookie_iff. tauto.
  - intros (x & Hx & Hb1 & Hb2 & ->). exists x. split; [reflexivity|].
    apply filter_In. split; [exact Hx|].
    apply containsScholarvox_iff in Hb1.
    apply isSessionCookie_iff in Hb2. now rewrite Hb1, Hb2.
Qed.

(** C4 (as amended). For every cookie list in which no cookie whose
    domain, after stripping a single leading dot, contains
    [scholarvox.com] has a name starting with [sfsessid] up to case, the
    detector answers [authenticated = false] (and reports no match),
    whatever preference or tracking cookies the list holds. *)
Theorem no_session_cookie_not_authenticated (all : list Cookie) :
  (forall c, In c all -> containsScholarvox (domain c) ->
             ~ spec_sessionName (name c)) ->
  authenticated (detectAuthFromCookies all) = false
  /\ matched (detectAuthFromCookies all) = [].
Proof.
  intros Hnone.
  destruct (detect_cases all) as [(Hex & _) | (_ & Ha & Hm)]; [|now split].
  apply hasSession_iff in Hex as (c & Hin & Hd & Hs).
  apply containsScholarvox_iff in Hd.
  apply isSessionCookie_iff in Hs. now destruct (Hnone c Hin Hd).
Qed.

(** C5 (as amended). A cookie counts as a cookie of the platform exactly
    when its domain, after stripping a single leading dot, contains
    [scholarvox.com] as a substring; every domain equal to
    [scholarvox.com] or ending in [.scholarvox.com] is among them; and the
    cookies whose domain does not contain that substring never influence
    the result. *)
Theorem platform_filter_is_substring_match (all : list Cookie) :
  (forall c, In c (filter onScholarvox all) <->
     In c all /\ exists a b,
       normalizeDomain (domain c) = a ++ str "scholarvox.com" ++ b)
  /\ (forall c, spec_platformDomain (domain c) = true -> onScholarvox c = true)
  /\ (forall others,
        Forall (fun c => forall a b,
                  normalizeDomain (domain c) <> a ++ str "scholarvox.com" ++ b)
               others ->
        forall before,
          detectAuthFromCookies (before ++ others ++ all)
          = detectAuthFromCookies (before ++ all)).
Proof.
  split; [|split].
  - intros c. rewrite filter_In. unfold onScholarvox.
    now rewrite includes_iff.
  - apply spec_platformDomain_onScholarvox.
  - intros others Hothers before.
    assert (E : filter onScholarvox others = []).
    { induction Hothers as [|c l Hc _ IH]; simpl; [reflexivity|].
      destruct (onScholarvox c) eqn:Hd; [|exact IH].
      apply includes_iff in Hd as (a & b & Hd). now destruct (Hc a b). }
    unfold detectAuthFromCookies.
    now rewrite !filter_app, E.
Qed.

Lemma session_cookie_authenticates_witness :
  let all := Samples.trackingCookies
             ++ [Samples.strangerCookie; Samples.sessionCookie;
                 Samples.lookalikeCookie] in
  authenticated (detectAuthFromCookies all) = true
  /\ matched (detectAuthFromCookies all)
     = [str "SFSESSID_univ@univ.scholarvox.com";
        str "sfsessid@scholarvox.com.example.org"].
Proof.
  destruct (session_cookie_authenticates
              (Samples.trackingCookies
               ++ [Samples.strangerCookie; Samples.sessionCookie;
                   Samples.lookalikeCookie]))
    as (Ha & Hm & _).
  - exists Samples.sessionCookie. split; [simpl; tauto|].
    split; [apply isSessionCookie_iff; reflexivity|].
    left. reflexivity.
  - split; [exact Ha|]. rewrite Hm. reflexivity.
Defined.

(** C3 (as stated) fails: next to a session cookie of the platform, the
    session cookie of [scholarvox.com.example.org], which is not on the
    platform by the suffix test, is listed in [matched] too. *)
Lemma matched_lists_lookalike_cookie :
  spec_platformDomain (domain Samples.sessionCookie) = true
  /\ isSessionCookie Samples.sessionCookie = true
  /\ spec_platformDomain (domain Samples.lookalikeCookie) = false
  /\ matched (detectAuthFromCookies
                [Samples.sessionCookie; Samples.lookalikeCookie])
     = [str "SFSESSID_univ@univ.scholarvox.com";
        str "sfsessid@scholarvox.com.example.org"]
  /\ map nameAtDomain
       (filter (fun c => spec_platformDomain (domain c) && isSessionCookie c)
               [Samples.sessionCookie; Samples.lookalikeCookie])
     = [str "SFSESSID_univ@univ.scholarvox.com"].
Proof. repeat split. Qed.

Lemma no_session_cookie_not_authenticated_witness :
  let all := Samples.strangerCookie :: Samples.trackingCookies in
  authenticated (detectAuthFromCookies all) = false
  /\ matched (detectAuthFromCookies all) = [].
Proof.
  apply (no_session_cookie_not_authenticated
           (Samples.strangerCookie :: Samples.trackingCookies)).
  intros c Hin Hd Hs. apply containsScholarvox_iff in Hd.
  apply isSessionCookie_iff in Hs.
  simpl in Hin.
  destruct Hin as [<- | [<- | [<- | [<- | []]]]]; discriminate.
Defined.

(** C4 (as stated) fails: the only cookie of the list is on
    [notscholarvox.com], which is not the platform by the suffix test, so
    the list holds no session cookie of the platform; yet the detector
    answers authenticated. *)
Lemma lookalike_session_authenticates :
  existsb (fun c => spec_platformDomain (domain c) && isSessionCookie c)
          [Samples.embeddedCookie] = false
  /\ authenticated (detectAuthFromCookies [Samples.embeddedCookie]) = true
  /\ matched (detectAuthFromCookies [Samples.embeddedCookie])
     = [str "SFSESSID@notscholarvox.com"].
Proof. repeat split. Qed.

(** C5 (as stated) fails: a session cookie on
    [scholarvox.com.example.org] is not on the platform by the suffix
    test, yet the filter keeps it and it decides the answer. *)
Lemma suffix_match_refuted :
  spec_platformDomain (domain Samples.lookalikeCookie) = false
  /\ filter onScholarvox [Samples.lookalikeCookie] = [Samples.lookalikeCookie]
  /\ authenticated (detectAuthFromCookies [Samples.lookalikeCookie]) = true
  /\ authenticated (detectAuthFromCookies []) = false.
Proof. repeat split. Qed.

End AuthFacts.

Module BookCheckFacts.
Import JS JSFacts BookCheck.

Lemma lowered_message : toLowerCase availableSoonMessage = availableSoonText.
Proof. reflexivity. Qed.

(** A page whose content shows the capitalised message passes the
    lower-case search of the program. *)
Lemma includes_availableSoon (pageContent a b : jsstring) :
  pageContent = a ++ availableSoonMessage ++ b ->
  includes (toLowerCase pageContent) availableSoonText = true.
Proof.
  intros ->. apply includes_iff.
  exists (toLowerCase a), (toLowerCase b).
  now rewrite !toLowerCase_app, lowered_message.
Qed.

Lemma catch_not_true (c : completion bool) :
  c <> Normal true -> catch c false = false.
Proof. destruct c as [[|]|e]; simpl; congruence. Qed.

(** C9. When the navigation fails, resolves without a response, or the
    response is not OK, the probe answers NOT_FOUND whatever the page
    holds. *)
Theorem failed_probe_is_not_found (page : CatalogPage) :
  (exists e, goto page = Throw e)
  \/ goto page = Normal None
  \/ (exists r, goto page = Normal (Some r) /\ ok r = false) ->
  checkBookStatus page = Normal NOT_FOUND.
Proof.
  unfold checkBookStatus.
  intros [[e ->] | [-> | (r & -> & Hr)]]; simpl; try reflexivity.
  now rewrite Hr.
Qed.

Lemma failed_probe_is_not_found_witness :
  checkBookStatus Samples.timedOutPage = Normal NOT_FOUND
  /\ checkBookStatus Samples.removedPageServerError = Normal NOT_FOUND.
Proof.
  split; apply failed_probe_is_not_found.
  - left. now exists (str "Timeout 15000ms exceeded").
  - right; right. now exists {| status := 500 |}.
Defined.

(** C6 (as amended). Once the navigation has succeeded with an OK response
    and the final URL is not an error route, a visible removal flag or
    not-available panel gives REMOVED, and a page content showing the
    available-soon message with neither marker visible gives
    AVAILABLE_SOON; both whatever the title element holds. *)
Theorem markers_decided_before_title (page : CatalogPage) (r : Response) :
  goto page = Normal (Some r) ->
  ok r = true ->
  test re_errorRoute (url page) = false ->
  (removedFlag_isVisible page = Normal true
   \/ notAvail_isVisible page = Normal true ->
   checkBookStatus page = Normal REMOVED)
  /\ (forall pageContent a b,
        removedFlag_isVisible page <> Normal true ->
        notAvail_isVisible page <> Normal true ->
        content page = Normal pageContent ->
        pageContent = a ++ availableSoonMessage ++ b ->
        checkBookStatus page = Normal AVAILABLE_SOON).
Proof.
  intros Hgoto Hok Hurl. unfold checkBookStatus.
  rewrite Hgoto; cbn [catch]. rewrite Hok, Hurl; cbn [negb].
  split.
  - intros [Hflag | Hpanel].
    + now rewrite Hflag.
    + destruct (catch (removedFlag_isVisible page) false); [reflexivity|].
      cbn [includes search isPrefix removedMessage str map
           list_ascii_of_string orb].
      now rewrite Hpanel.
  - intros pageContent a b Hflag Hpanel Hcontent Hshows.
    rewrite (catch_not_true _ Hflag), (catch_not_true _ Hpanel), Hcontent.
    cbn [includes search isPrefix removedMessage str map
         list_ascii_of_string orb].
    now rewrite (includes_availableSoon _ _ _ Hshows).
Qed.

Lemma markers_decided_before_title_witness :
  checkBookStatus Samples.removedPage = Normal REMOVED
  /\ checkBookStatus Samples.soonPage = Normal AVAILABLE_SOON.
Proof.
  split.
  - apply (markers_decided_before_title Samples.removedPage
             {| status := 200 |} eq_refl eq_refl eq_refl).
    left; reflexivity.
  - destruct (markers_decided_before_title Samples.soonPage
                {| status := 200 |} eq_refl eq_refl eq_refl) as [_ Hsoon].
    eapply Hsoon with (a := str "<html><body><h2>Titre</h2><p>")
                      (b := str "</p></body></html>");
      [discriminate | discriminate | reflexivity | reflexivity].
Defined.

(** C6 (as stated) fails: with the removal flag visible the probe still
    answers NOT_FOUND when the response is not OK, and when the final URL
    matches the error-route pattern (here through the digits 404 of the
    book identifier). *)
Lemma removed_marker_behind_not_found :
  removedFlag_isVisible Samples.removedPageServerError = Normal true
  /\ checkBookStatus Samples.removedPageServerError = Normal NOT_FOUND
  /\ removedFlag_isVisible Samples.removedPage404 = Normal true
  /\ (exists r, goto Samples.removedPage404 = Normal (Some r) /\ ok r = true)
  /\ checkBookStatus Samples.removedPage404 = Normal NOT_FOUND.
Proof.
  repeat split. exists {| status := 200 |}. now split.
Qed.

End BookCheckFacts.

Module DownloaderFacts.
Import JS Downloader.

(** Every run of the page-count part, by the outcomes of the first two
    navigations and of the counts that follow them. *)
Lemma loadTotalPages_runs (r : Reader) :
  loadTotalPages r initial =
  let loaded := {| opened := 1; trace := [NewPage; Goto] |} in
  let retried :=
    [NewPage; Goto; CountPages 0; Log zeroPagesWarning; ClosePage;
     NewPage; Goto] in
  match navigation r 0 with
  | Throw e => (Throw e, loaded)
  | Normal _ =>
    match evaluateCount r 0 with
    | Throw e => (Throw e, loaded)
    | Normal first =>
      if (first =? 0)%N then
        match navigation r 1 with
        | Throw e => (Throw e, {| opened := 2; trace := retried |})
        | Normal _ =>
          match evaluateCount r 1 with
          | Throw e => (Throw e, {| opened := 2; trace := retried |})
          | Normal second =>
            if (second =? 0)%N then
              (Throw stillZeroPages,
               {| opened := 2; trace := retried ++ [CountPages 0] |})
            else
              (Normal second,
               {| opened := 2;
                  trace := retried ++ [CountPages second;
                                       Log (str "Retry successful!")] |})
          end
        end
      else
        (Normal first,
         {| opened := 1; trace := [NewPage; Goto; CountPages first] |})
    end
  end.
Proof.
  destruct (navigation r 0) as [[]|e0] eqn:E0;
    destruct (evaluateCount r 0) as [first|c0] eqn:C0;
    destruct (navigation r 1) as [[]|e1] eqn:E1;
    destruct (evaluateCount r 1) as [second|c1] eqn:C1;
    try destruct (N.eqb_spec first 0) as [->|Hfirst];
    try destruct (N.eqb_spec second 0) as [->|Hsecond];
    unfold loadTotalPages, openIframePage, countPages, emit, ret, throw,
      bind, initial;
    repeat (cbn [opened trace app Nat.pred N.eqb];
            match goal with
            | H : navigation _ _ = _ |- _ => rewrite H
            | H : evaluateCount _ _ = _ |- _ => rewrite H
            | H : ?n <> 0%N |- _ =>
              apply N.eqb_neq in H; rewrite H
            | H : (?n =? 0)%N = false |- _ => rewrite H
            end);
    reflexivity.
Qed.



End DownloaderFacts.

Module PrintToPdfFacts.
Import JS PrintToPdf.
Import Floats.

(** ** Render stabilisation *)

Lemma isColored_blank (d : ImageData) : blankPixel d -> isColored d = false.
Proof.
  unfold blankPixel, isColored. intros [Ha | (Hr & Hg & Hb)].
  - rewrite Ha. reflexivity.
  - apply andb_false_iff; right.
    rewrite !orb_false_iff, !N.ltb_ge. auto.
Qed.

Lemma blank_isColored (d : ImageData) : isColored d = false -> blankPixel d.
Proof.
  unfold blankPixel, isColored. intros H.
  apply andb_false_iff in H as [H | H].
  - left. apply N.ltb_ge in H. lia.
  - right. rewrite !orb_false_iff, !N.ltb_ge in H. tauto.
Qed.

(** On a canvas of at least 10 pixels each way the clamping by
    [Math.min] leaves the three sample points unchanged. *)
Lemma samples_inside (w : Z) :
  (10 <= w)%Z ->
  (Z.min (w - 1) (w / 4) = w / 4 /\ Z.min (w - 1) (w / 2) = w / 2
   /\ Z.min (w - 1) (3 * w / 4) = 3 * w / 4)%Z.
Proof.
  intros Hw. repeat split; apply Z.min_r; Z.div_mod_to_equations; lia.
Qed.

Lemma canvasHasNonWhitePixel_blank (cv : HTMLCanvasElement) :
  sampledBlank cv -> canvasHasNonWhitePixel cv = Normal false.
Proof.
  intros Hblank. unfold canvasHasNonWhitePixel.
  destruct (negb (context2d cv) || (width cv <? 10)%Z || (height cv <? 10)%Z)
    eqn:Hearly; [reflexivity|].
  apply orb_false_iff in Hearly as [Hearly Hh].
  apply orb_false_iff in Hearly as [_ Hw].
  apply Z.ltb_ge in Hw, Hh.
  destruct (samples_inside _ Hw) as (Hx1 & Hx2 & Hx3).
  destruct (samples_inside _ Hh) as (Hy1 & Hy2 & Hy3).
  destruct (Hblank _ _ (or_introl eq_refl)) as (d1 & E1 & B1).
  destruct (Hblank _ _ (or_intror (or_introl eq_refl))) as (d2 & E2 & B2).
  destruct (Hblank _ _ (or_intror (or_intror (or_introl eq_refl))))
    as (d3 & E3 & B3).
  unfold samples, countColored.
  rewrite Hx1, Hy1, E1, Hx2, Hy2, E2, Hx3, Hy3, E3.
  now rewrite !isColored_blank.
Qed.

Lemma validate_blank_canvas (cv : HTMLCanvasElement) (a : float) :
  sampledBlank cv -> validate {| el := Canvas cv; area := a |} = Normal None.
Proof.
  intros Hblank. unfold validate; cbn [el].
  rewrite (canvasHasNonWhitePixel_blank _ Hblank).
  now destruct ((10 <? width cv)%Z && (10 <? height cv)%Z).
Qed.

Lemma waitForRender_skips_blank (world : nat -> Document) (attempts k : nat) :
  picksBlankCanvas (world k) ->
  waitForRender (S attempts) k world = waitForRender attempts (S k) world.
Proof.
  intros (cv & a & Hpick & Hblank). cbn [waitForRender].
  now rewrite Hpick, (validate_blank_canvas _ _ Hblank).
Qed.

Lemma waitForRender_all_blank (world : nat -> Document) (attempts k : nat) :
  (forall j, k <= j < k + attempts -> picksBlankCanvas (world j)) ->
  waitForRender attempts k world = Normal (NotRendered timedOut).
Proof.
  revert k; induction attempts as [|n IH]; intros k Hall; [reflexivity|].
  rewrite waitForRender_skips_blank by (apply Hall; lia).
  apply IH. intros j Hj. apply Hall. lia.
Qed.

(** A success on a canvas names an iteration whose candidate was a canvas
    with a coloured sample. *)
Lemma waitForRender_canvas_sound (world : nat -> Document) (attempts k : nat)
    (w h : float) (source : jsstring) :
  waitForRender attempts k world = Normal (Rendered KCanvas w h source) ->
  exists j cv a,
    k <= j < k + attempts
    /\ pickLargeCandidate (world j) = Some {| el := Canvas cv; area := a |}
    /\ canvasHasNonWhitePixel cv = Normal true
    /\ ~ sampledBlank cv.
Proof.
  revert k; induction attempts as [|n IH]; intros k; [discriminate|].
  cbn [waitForRender].
  destruct (pickLargeCandidate (world k)) as [[e a]|] eqn:Hpick.
  2: { intros H. destruct (IH _ H) as (j & cv & a & Hj & R).
       exists j, cv, a. split; [lia | exact R]. }
  destruct (validate {| el := e; area := a |}) as [[info|]|err] eqn:Hval;
    [ | | discriminate].
  2: { intros H. destruct (IH _ H) as (j & cv & a' & Hj & R).
       exists j, cv, a'. split; [lia | exact R]. }
  intros H. injection H as ->.
  unfold validate in Hval; cbn [el] in Hval. destruct e as [img|cv|div].
  - destruct (_ && _) in Hval; discriminate.
  - destruct ((10 <? width cv)%Z && (10 <? height cv)%Z); [|discriminate].
    destruct (canvasHasNonWhitePixel cv) as [[|]|err] eqn:Hcv;
      try discriminate.
    exists k, cv, a. split; [lia|]. split; [exact Hpick|].
    split; [exact Hcv|]. intros Hblank. rewrite (canvasHasNonWhitePixel_blank _ Hblank) in Hcv.
    discriminate.
  - destruct (_ && _)%bool in Hval; discriminate.
Qed.

Lemma renderInfo_loop (world : nat -> Document) :
  renderInfo world = waitForRender 30 0 world.
Proof. reflexivity. Qed.

(** C2. A canvas whose three sampled pixels are transparent or near-white
    fails the pixel check, is not accepted by the validation, and an
    iteration that picks it goes on to the next one; a run in which every
    iteration picks such a canvas ends in the time-out, and a run that
    succeeds on a canvas found one with a coloured sample. *)
Theorem blank_canvas_is_never_accepted (cv : HTMLCanvasElement) :
  sampledBlank cv ->
  canvasHasNonWhitePixel cv = Normal false
  /\ (forall a, validate {| el := Canvas cv; area := a |} = Normal None)
  /\ (forall world attempts k a,
        pickLargeCandidate (world k) = Some {| el := Canvas cv; area := a |} ->
        waitForRender (S attempts) k world
        = waitForRender attempts (S k) world)
  /\ (forall world,
        (forall k, k < 30 -> picksBlankCanvas (world k)) ->
        renderInfo world = Normal (NotRendered timedOut))
  /\ (forall world w h source,
        renderInfo world = Normal (Rendered KCanvas w h source) ->
        exists k cv' a,
          k < 30
          /\ pickLargeCandidate (world k)
             = Some {| el := Canvas cv'; area := a |}
          /\ ~ sampledBlank cv').
Proof.
  intros Hblank. split; [|split; [|split; [|split]]].
  - now apply canvasHasNonWhitePixel_blank.
  - intros a. now apply validate_blank_canvas.
  - intros world attempts k a Hpick. apply waitForRender_skips_blank.
    now exists cv, a.
  - intros world Hall. rewrite renderInfo_loop.
    apply waitForRender_all_blank.
    intros j Hj. apply Hall. lia.
  - intros world w h source Hok. rewrite renderInfo_loop in Hok.
    destruct (waitForRender_canvas_sound world 30 0 w h source Hok)
      as (j & cv' & a & Hj & Hpick & _ & Hcol).
    exists j, cv', a. split; [lia|]. now split.
Qed.

Lemma placeholder_sampledBlank : sampledBlank Samples.placeholderCanvas.
Proof.
  intros x y [E | [E | [E | []]]]; injection E as <- <-;
    eexists; (split; [reflexivity|]); unfold blankPixel; cbn;
    [right | left | right]; lia.
Qed.

Lemma blank_canvas_is_never_accepted_witness :
  canvasHasNonWhitePixel Samples.placeholderCanvas = Normal false
  /\ renderInfo (fun _ => Samples.canvasDocument Samples.placeholderCanvas)
     = Normal (NotRendered timedOut).
Proof.
  destruct (blank_canvas_is_never_accepted Samples.placeholderCanvas
              placeholder_sampledBlank) as (Hcheck & _ & _ & Hloop & _).
  split; [exact Hcheck|]. apply (Hloop _). intros k _.
  eexists _, _. split; [reflexivity | exact placeholder_sampledBlank].
Defined.

(** Once the page is drawn the loop succeeds on the canvas, here at the
    fourth iteration. *)
Example drawn_canvas_accepted :
  renderInfo (fun k => Samples.canvasDocument
                         (if Nat.ltb k 3 then Samples.placeholderCanvas
                          else Samples.drawnCanvas))
  = Normal (Rendered KCanvas 2000 2600 (str "canvas pixels")).
Proof. vm_compute. reflexivity. Qed.

(** ** Page size and print scale *)

(** C1. For every detected pixel size the page printed is [w/96] by
    [h/96] inches and the automatic scale is [0.4 * (w/1080)]; 1080x1332
    pixels give 11.25in by 13.875in, and the widths 1080 and 2160 give the
    scales 0.4 and 0.8 exactly. *)
Theorem page_size_and_auto_scale :
  (forall (scale : option float) (d : Dimensions),
      pdf_width (pdfOptions scale d) = (dim_width d / 96)%float
      /\ pdf_height (pdfOptions scale d) = (dim_height d / 96)%float
      /\ autoScale d = (0.4 * (dim_width d / 1080))%float
      /\ pdf_scale (pdfOptions None d) = autoScale d)
  /\ (forall d, dim_width d = 1080%float -> dim_height d = 1332%float ->
        pageWidthInches d = 11.25%float
        /\ pageHeightInches d = 13.875%float
        /\ (abs (pageWidthInches d - 11.25) <=? 0.01)%float = true
        /\ (abs (pageHeightInches d - 13.875) <=? 0.01)%float = true)
  /\ (forall d, dim_width d = 1080%float -> autoScale d = 0.4%float)
  /\ (forall d, dim_width d = 2160%float -> autoScale d = 0.8%float)
  /\ (let o := printOptions None (Samples.imageDocument 1080 1332) in
      pdf_width o = 11.25%float /\ pdf_height o = 13.875%float
      /\ pdf_scale o = 0.4%float)
  /\ pdf_scale (printOptions None (Samples.imageDocument 2160 2664))
     = 0.8%float.
Proof.
  split; [|split; [|split; [|split; [|split]]]].
  - intros scale d. repeat split.
  - intros d Hw Hh. unfold pageWidthInches, pageHeightInches.
    rewrite Hw, Hh. repeat split.
  - intros d Hw. unfold autoScale. now rewrite Hw.
  - intros d Hw. unfold autoScale. now rewrite Hw.
  - vm_compute. repeat split.
  - vm_compute. reflexivity.
Qed.

(** C8. The caller's scale is printed with whenever it differs from 0.4;
    when it equals 0.4 the automatic scale [0.4 * (w/1080)] is used. *)
Theorem explicit_scale_overrides_unless_sentinel
    (scale : float) (d : Dimensions) :
  ((scale =? 0.4)%float = false ->
   pdf_scale (pdfOptions (Some scale) d) = scale)
  /\ ((scale =? 0.4)%float = true ->
      pdf_scale (pdfOptions (Some scale) d)
      = (0.4 * (dim_width d / 1080))%float).
Proof.
  unfold pdfOptions, finalScale; cbn [pdf_scale].
  split; intros ->; reflexivity.
Qed.

Lemma explicit_scale_overrides_unless_sentinel_witness :
  pdf_scale (printOptions (Some 0.55%float) (Samples.imageDocument 2160 2664))
  = 0.55%float
  /\ pdf_scale (printOptions (Some 0.4%float) (Samples.imageDocument 2160 2664))
     = 0.8%float.
Proof.
  split.
  - apply (explicit_scale_overrides_unless_sentinel 0.55%float). reflexivity.
  - unfold printOptions.
    rewrite (proj2 (explicit_scale_overrides_unless_sentinel 0.4%float _))
      by reflexivity.
    vm_compute. reflexivity.
Defined.

End PrintToPdfFacts.

Module CredentialsFacts.
Import JS Credentials.
Local Open Scope N_scope.

(** ** Exclusive or on bounded code units *)

Lemma lxor_below (n a b : N) : a < 2 ^ n -> b < 2 ^ n -> N.lxor a b < 2 ^ n.
Proof.
  intros Ha Hb.
  destruct (N.eq_dec (N.lxor a b) 0) as [E | E].
  - rewrite E. apply N.neq_0_lt_0, N.pow_nonzero. discriminate.
  - assert (Hn : 0 < n).
    { destruct (N.eq_dec n 0) as [-> | ]; [|lia].
      simpl in Ha, Hb. assert (a = 0) by lia. assert (b = 0) by lia.
      subst. now destruct E. }
    apply N.log2_lt_pow2; [lia|].
    pose proof (N.log2_lxor a b) as Hl.
    assert (La : N.log2 a < n).
    { destruct (N.eq_dec a 0) as [-> | ]; [exact Hn|].
      apply N.log2_lt_pow2; lia. }
    assert (Lb : N.log2 b < n).
    { destruct (N.eq_dec b 0) as [-> | ]; [exact Hn|].
      apply N.log2_lt_pow2; lia. }
    lia.
Qed.

Lemma lxor_cancel (c k : N) : N.lxor (N.lxor c k) k = c.
Proof. now rewrite N.lxor_assoc, N.lxor_nilpotent, N.lxor_0_r. Qed.

Lemma key_is_ascii : isAscii key.
Proof. unfold isAscii. repeat constructor. Qed.

Lemma charCodeAt_key_below (i : nat) : charCodeAt key i < 128.
Proof.
  unfold charCodeAt.
  destruct (nth_in_or_default i key 0) as [Hin | ->]; [|lia].
  exact (proj1 (Forall_forall _ _) key_is_ascii _ Hin).
Qed.

(** One step of the loop, on the character of index [i]. *)
Lemma xor_step_below (i : nat) (c : N) :
  c < 128 ->
  fromCharCode (N.lxor c (charCodeAt key (Nat.modulo i (List.length key))))
  < 128.
Proof.
  intros Hc. unfold fromCharCode.
  pose proof (lxor_below 7 c _ Hc (charCodeAt_key_below
                                     (Nat.modulo i (List.length key)))) as H.
  change (2 ^ 7) with 128 in H.
  rewrite N.mod_small; lia.
Qed.

Lemma xor_step_involutive (i : nat) (c : N) :
  c < 65536 ->
  let k := charCodeAt key (Nat.modulo i (List.length key)) in
  fromCharCode (N.lxor (fromCharCode (N.lxor c k)) k) = c.
Proof.
  intros Hc k. unfold fromCharCode.
  assert (Hk : k < 2 ^ 16).
  { pose proof (charCodeAt_key_below (Nat.modulo i (List.length key))).
    change (2 ^ 16) with 65536. subst k. lia. }
  pose proof (lxor_below 16 c k Hc Hk) as H. change (2 ^ 16) with 65536 in H.
  rewrite (N.mod_small (N.lxor c k)) by exact H.
  rewrite lxor_cancel. now apply N.mod_small.
Qed.

(** ** The loop *)

Lemma xorLoop_result (i : nat) (rest result : jsstring) :
  xorLoop i rest result = result ++ xorLoop i rest [].
Proof.
  revert i result. induction rest as [|c rest IH]; intros i result; simpl.
  - now rewrite app_nil_r.
  - rewrite IH. rewrite (IH (S i) [_]). now rewrite <- app_assoc.
Qed.

Lemma xorLoop_cons (i : nat) (c : N) (rest : jsstring) :
  xorLoop i (c :: rest) [] =
  fromCharCode (N.lxor c (charCodeAt key (Nat.modulo i (List.length key))))
  :: xorLoop (S i) rest [].
Proof. simpl. now rewrite xorLoop_result. Qed.

Lemma xorLoop_length (i : nat) (text : jsstring) :
  List.length (xorLoop i text []) = List.length text.
Proof.
  revert i. induction text as [|c text IH]; intros i; [reflexivity|].
  rewrite xorLoop_cons. simpl. now rewrite IH.
Qed.

Lemma xorLoop_ascii (i : nat) (text : jsstring) :
  isAscii text -> isAscii (xorLoop i text []).
Proof.
  unfold isAscii. intros H. revert i.
  induction H as [|c text Hc _ IH]; intros i; [constructor|].
  rewrite xorLoop_cons. constructor; [now apply xor_step_below | apply IH].
Qed.

(** Running the loop twice gives the text back. *)
Lemma xorLoop_involutive (i : nat) (text : jsstring) :
  Forall (fun c => c < 65536) text ->
  xorLoop i (xorLoop i text []) [] = text.
Proof.
  intros H. revert i.
  induction H as [|c text Hc _ IH]; intros i; [reflexivity|].
  rewrite !xorLoop_cons, IH. f_equal. now apply xor_step_involutive.
Qed.

(** ** UTF-8 on ASCII *)

Lemma utf8Encode_ascii (s : jsstring) : isAscii s -> utf8Encode s = s.
Proof.
  unfold isAscii. induction 1 as [|c s Hc _ IH]; [reflexivity|].
  simpl. apply N.ltb_lt in Hc. now rewrite Hc, IH.
Qed.

Lemma utf8Decode_ascii (bs : list N) : isAscii bs -> utf8Decode bs = bs.
Proof.
  unfold isAscii. induction 1 as [|b bs Hb _ IH]; [reflexivity|].
  simpl. apply N.ltb_lt in Hb. now rewrite Hb, IH.
Qed.

(** ** Base64 *)

Lemma unbase64_base64Char (v : N) :
  v < 64 -> unbase64 (base64Char v) = Some v.
Proof.
  intros Hv.
  assert (Hall : forallb
                   (fun w => match unbase64 (base64Char w) with
                             | Some u => u =? w
                             | None => false
                             end)
                   (map N.of_nat (seq 0 64)) = true) by (vm_compute; reflexivity).
  rewrite forallb_forall in Hall.
  specialize (Hall v). destruct (unbase64 (base64Char v)) as [u|].
  - f_equal. apply N.eqb_eq, Hall.
    apply in_map_iff. exists (N.to_nat v). split; [apply N2Nat.id|].
    apply in_seq. lia.
  - discriminate Hall.
    apply in_map_iff. exists (N.to_nat v). split; [apply N2Nat.id|].
    apply in_seq. lia.
Qed.

Lemma sextets_char (v : N) (rest : jsstring) :
  v < 64 -> sextets (base64Char v :: rest) = v :: sextets rest.
Proof.
  intros Hv. unfold sextets; cbn [flat_map].
  now rewrite (unbase64_base64Char _ Hv).
Qed.

Lemma sextets_padding (rest : jsstring) :
  sextets (padding :: rest) = sextets rest.
Proof. reflexivity. Qed.

Section Quanta.
#[local] Ltac Zify.zify_post_hook ::= Z.to_euclidean_division_equations.

(** The four sextets of three bytes are sextets, and give the bytes back. *)
Lemma sextet_bounds (a b c : N) :
  a < 256 -> b < 256 -> c < 256 ->
  a / 4 < 64 /\ a mod 4 * 16 + b / 16 < 64
  /\ b mod 16 * 4 + c / 64 < 64 /\ c mod 64 < 64
  /\ a mod 4 * 16 < 64 /\ b mod 16 * 4 < 64.
Proof. intros. repeat split; lia. Qed.

Lemma bytes_of_sextets (a b c : N) :
  a < 256 -> b < 256 -> c < 256 ->
  a / 4 * 4 + (a mod 4 * 16 + b / 16) / 16 = a
  /\ (a mod 4 * 16 + b / 16) mod 16 * 16 + (b mod 16 * 4 + c / 64) / 4 = b
  /\ (b mod 16 * 4 + c / 64) mod 4 * 64 + c mod 64 = c.
Proof. intros. repeat split; lia. Qed.

End Quanta.

(** Decoding the Base64 text of a byte sequence gives the bytes back. *)
Lemma base64_roundtrip (bs : list N) :
  Forall (fun b => b < 256) bs -> base64Decode (base64Encode bs) = bs.
Proof.
  unfold base64Decode.
  enough (H : forall bs,
             Forall (fun b => b < 256) bs ->
             bytesOfSextets (sextets (base64Encode bs)) = bs
             /\ (forall a, a < 256 ->
                   bytesOfSextets (sextets (base64Encode (a :: bs))) = a :: bs)
             /\ (forall a b, a < 256 -> b < 256 ->
                   bytesOfSextets (sextets (base64Encode (a :: b :: bs)))
                   = a :: b :: bs)).
  { intros Hbs. now apply H. }
  clear bs. induction 1 as [|c bs Hc Hbs IH].
  - split; [reflexivity|]. split.
    + intros a Ha.
      destruct (sextet_bounds a 0 0 Ha) as (S1 & S2 & _); try lia.
      destruct (bytes_of_sextets a 0 0 Ha) as (B1 & _); try lia.
      rewrite N.Div0.div_0_l, N.add_0_r in S2, B1.
      cbn [base64Encode].
      rewrite !sextets_char, !sextets_padding by assumption.
      cbn. now rewrite B1.
    + intros a b Ha Hb.
      destruct (sextet_bounds a b 0 Ha Hb) as (S1 & S2 & S3 & _); try lia.
      destruct (bytes_of_sextets a b 0 Ha Hb) as (B1 & B2 & _); try lia.
      rewrite N.Div0.div_0_l, N.add_0_r in S3, B2.
      cbn [base64Encode].
      rewrite !sextets_char, !sextets_padding by assumption.
      cbn. now rewrite B1, B2.
  - destruct IH as (IH0 & IH1 & IH2).
    split; [now apply IH1|]. split; [intros a Ha; now apply IH2|].
    intros a b Ha Hb.
    destruct (sextet_bounds a b c Ha Hb Hc) as (S1 & S2 & S3 & S4 & _).
    destruct (bytes_of_sextets a b c Ha Hb Hc) as (B1 & B2 & B3).
    cbn [base64Encode app].
    rewrite !sextets_char by assumption.
    cbn [bytesOfSextets app]. now rewrite B1, B2, B3, IH0.
Qed.

(** ** The codec *)

Lemma ascii_is_byte (s : jsstring) :
  isAscii s -> Forall (fun b => b < 256) s.
Proof. apply Forall_impl. intros; lia. Qed.

Lemma ascii_is_unit (s : jsstring) :
  isAscii s -> Forall (fun c => c < 65536) s.
Proof. apply Forall_impl. intros; lia. Qed.

(** C10. On strings of ASCII characters [decode] undoes [encode], so the
    credentials read back from the file are the ones saved. *)
Theorem codec_roundtrip_ascii (s : jsstring) :
  isAscii s ->
  decode (encode s) = s
  /\ (forall password, isAscii password ->
        loadCredentials (Some (saveCredentials s password))
        = Some {| email := s; password := password |}).
Proof.
  assert (Hround : forall t, isAscii t -> decode (encode t) = t).
  { intros t Ht. unfold decode, encode.
    pose proof (xorLoop_ascii 0 t Ht) as Hx.
    rewrite (utf8Encode_ascii _ Hx).
    rewrite (base64_roundtrip _ (ascii_is_byte _ Hx)).
    rewrite (utf8Decode_ascii _ Hx).
    apply xorLoop_involutive. now apply ascii_is_unit. }
  intros Hs. split; [now apply Hround|].
  intros password Hp. unfold loadCredentials, saveCredentials.
  cbn [data_email data_password]. now rewrite !Hround.
Qed.

Lemma codec_roundtrip_ascii_witness :
  decode (encode (str "prenom.nom@viacesi.fr")) = str "prenom.nom@viacesi.fr".
Proof.
  apply (codec_roundtrip_ascii (str "prenom.nom@viacesi.fr")).
  unfold isAscii. repeat (constructor; [reflexivity|]). constructor.
Defined.

End CredentialsFacts.

Module BookCheckMore.
Import JS JSFacts BookCheck BookCheckFacts Validation.

(** ** [trim] *)

Lemma trimStart_nil_iff (s : jsstring) :
  trimStart s = [] <-> forallb isWhiteSpace s = true.
Proof.
  induction s as [|c s IH]; simpl; [tauto|].
  destruct (isWhiteSpace c); simpl; [exact IH|].
  split; discriminate.
Qed.

Lemma trimStart_forallb (s : jsstring) :
  forallb isWhiteSpace (trimStart s) = true -> forallb isWhiteSpace s = true.
Proof.
  induction s as [|c s IH]; simpl; [tauto|].
  destruct (isWhiteSpace c) eqn:E; simpl; [exact IH|].
  now rewrite E.
Qed.

Lemma forallb_rev {A} (f : A -> bool) (l : list A) :
  forallb f (rev l) = forallb f l.
Proof.
  induction l as [|x l IH]; simpl; [reflexivity|].
  rewrite forallb_app, IH. simpl. rewrite andb_true_r. apply andb_comm.
Qed.

(** The trimmed text is empty exactly when the text is all white space. *)
Lemma trim_nil_iff (s : jsstring) :
  trim s = [] <-> forallb isWhiteSpace s = true.
Proof.
  unfold trim. split.
  - intros H. apply (f_equal (@rev N)) in H.
    rewrite rev_involutive in H. simpl in H.
    apply trimStart_nil_iff in H. rewrite forallb_rev in H.
    now apply trimStart_forallb.
  - intros H. apply trimStart_nil_iff in H. now rewrite H.
Qed.

Lemma nonblank_iff (s : jsstring) :
  (0 <? List.length (trim s))%nat = true <->
  exists ch, In ch s /\ isWhiteSpace ch = false.
Proof.
  split.
  - intros H. destruct (forallb isWhiteSpace s) eqn:E.
    + apply trim_nil_iff in E. now rewrite E in H.
    + assert (Hex : existsb (fun c => negb (isWhiteSpace c)) s = true).
      { clear H. induction s as [|c s IH]; [discriminate|].
        simpl in *. destruct (isWhiteSpace c); simpl in *; auto. }
      apply existsb_exists in Hex as (ch & Hin & Hch). exists ch.
      split; [exact Hin|]. now destruct (isWhiteSpace ch).
  - intros (ch & Hin & Hch). destruct (trim s) eqn:E; [|reflexivity].
    apply trim_nil_iff in E. rewrite forallb_forall in E.
    rewrite (E ch Hin) in Hch. discriminate.
Qed.

(** ** The probe *)

Lemma catch_false_iff (c : completion bool) :
  catch c false = false <-> c <> Normal true.
Proof.
  split; [|apply catch_not_true].
  destruct c as [[|]|e]; simpl; congruence.
Qed.

(** The probe past its two NOT_FOUND guards and its two removal checks. *)
Lemma checkBookStatus_unmarked (page : CatalogPage) (r : Response) :
  goto page = Normal (Some r) -> ok r = true ->
  test re_errorRoute (url page) = false ->
  removedFlag_isVisible page <> Normal true ->
  notAvail_isVisible page <> Normal true ->
  checkBookStatus page =
  match content page with
  | Throw e => Throw e
  | Normal pageContent =>
    if includes (toLowerCase pageContent) availableSoonText
    then Normal AVAILABLE_SOON
    else match title_textContent page with
         | Normal (Some t) =>
           if (0 <? List.length (trim t))%nat then Normal FOUND
           else Normal NOT_FOUND
         | _ => Normal NOT_FOUND
         end
  end.
Proof.
  intros Hgoto Hok Hurl Hflag Hpanel. unfold checkBookStatus.
  rewrite Hgoto; cbn [catch]. rewrite Hok, Hurl; cbn [negb].
  rewrite (catch_not_true _ Hflag), (catch_not_true _ Hpanel).
  cbn [includes search isPrefix removedMessage str map
       list_ascii_of_string orb].
  destruct (content page) as [pageContent|e]; [|reflexivity].
  destruct (includes (toLowerCase pageContent) availableSoonText);
    [reflexivity|].
  destruct (title_textContent page) as [[t|]|e]; reflexivity.
Qed.

(** Every answer other than NOT_FOUND passed the two guards. *)
Lemma checkBookStatus_guards (page : CatalogPage) (res : completion BookStatus) :
  checkBookStatus page = res -> res <> Normal NOT_FOUND ->
  (exists r, goto page = Normal (Some r) /\ ok r = true)
  /\ test re_errorRoute (url page) = false.
Proof.
  unfold checkBookStatus. intros <- Hres.
  destruct (goto page) as [[r|]|e]; cbn [catch] in *; try congruence.
  destruct (ok r) eqn:Hok; cbn [negb] in *; [|congruence].
  destruct (test re_errorRoute (url page)); [congruence|].
  split; [now exists r | reflexivity].
Qed.

Lemma checkBookStatus_marked (page : CatalogPage) (r : Response) :
  goto page = Normal (Some r) -> ok r = true ->
  test re_errorRoute (url page) = false ->
  removedFlag_isVisible page = Normal true
  \/ notAvail_isVisible page = Normal true ->
  checkBookStatus page = Normal REMOVED.
Proof.
  intros Hgoto Hok Hurl Hmark. unfold checkBookStatus.
  rewrite Hgoto; cbn [catch]. rewrite Hok, Hurl; cbn [negb].
  destruct (catch (removedFlag_isVisible page) false) eqn:Hflag;
    [reflexivity|].
  destruct Hmark as [Hvisible | Hpanel].
  - rewrite Hvisible in Hflag. discriminate.
  - cbn [includes search isPrefix removedMessage str map
         list_ascii_of_string orb].
    now rewrite Hpanel.
Qed.

Lemma completion_bool_dec (c : completion bool) :
  c = Normal true \/ c <> Normal true.
Proof. destruct c as [[|]|e]; [now left | right | right]; congruence. Qed.

Lemma checkBookStatus_found_iff (page : CatalogPage) :
  checkBookStatus page = Normal FOUND <-> foundConditions page.
Proof.
  unfold foundConditions. split.
  - intros Hfound.
    destruct (checkBookStatus_guards page _ Hfound) as [(r & Hgoto & Hok) Hurl];
      [discriminate|].
    destruct (completion_bool_dec (removedFlag_isVisible page)) as [Hf | Hf].
    { rewrite (checkBookStatus_marked page r) in Hfound by auto.
      discriminate. }
    destruct (completion_bool_dec (notAvail_isVisible page)) as [Hp | Hp].
    { rewrite (checkBookStatus_marked page r) in Hfound by auto.
      discriminate. }
    rewrite (checkBookStatus_unmarked page r) in Hfound by assumption.
    destruct (content page) as [pageContent|e]; [|discriminate].
    destruct (includes (toLowerCase pageContent) availableSoonText) eqn:Hsoon;
      [discriminate|].
    destruct (title_textContent page) as [[t|]|e]; try discriminate.
    destruct (0 <? List.length (trim t))%nat eqn:Ht; [|discriminate].
    apply nonblank_iff in Ht as (ch & Hin & Hch).
    repeat split; try assumption.
    + now exists r.
    + now exists pageContent.
    + now exists t, ch.
  - intros ((r & Hgoto & Hok) & Hurl & Hf & Hp & (pc & Hc & Hsoon)
            & (t & ch & Ht & Hin & Hch)).
    rewrite (checkBookStatus_unmarked page r) by assumption.
    rewrite Hc, Hsoon, Ht.
    assert (Hnb : (0 <? List.length (trim t))%nat = true)
      by (apply nonblank_iff; now exists ch).
    now rewrite Hnb.
Qed.

(** X1. [validateBook] accepts a book exactly when the navigation gave an
    OK response, the final URL is no error route, neither removal marker
    is visible, the page content could be read and lacks the
    available-soon message, and the title element has a character that is
    not white space. *)
Theorem validateBook_accepts_iff (page : CatalogPage) :
  fst (validateBook page) = true <-> foundConditions page.
Proof.
  rewrite <- checkBookStatus_found_iff. unfold validateBook.
  destruct (checkBookStatus page) as [[| | |]|e]; simpl;
    split; congruence.
Qed.

(** X2. The text of the removal flag never decides the answer: two pages
    that differ only in what [innerText] returns get the same status. *)
Theorem removal_text_is_never_read
    (g : completion (option Response)) (u : jsstring)
    (flag panel : completion bool) (text1 text2 : completion jsstring)
    (c : completion jsstring) (title : completion (option jsstring)) :
  checkBookStatus
    {| goto := g; url := u; removedFlag_isVisible := flag;
       removedFlag_innerText := text1; notAvail_isVisible := panel;
       content := c; title_textContent := title |}
  = checkBookStatus
      {| goto := g; url := u; removedFlag_isVisible := flag;
         removedFlag_innerText := text2; notAvail_isVisible := panel;
         content := c; title_textContent := title |}.
Proof.
  unfold checkBookStatus; cbn [goto url removedFlag_isVisible
    removedFlag_innerText notAvail_isVisible content title_textContent].
  destruct (catch g None) as [r|]; [|reflexivity].
  destruct (negb (ok r)); [reflexivity|].
  destruct (test re_errorRoute u); [reflexivity|].
  destruct (catch flag false); reflexivity.
Qed.

Lemma test_unanchored (r : RegExp) (s a t : jsstring) :
  anchored r = false -> s = a ++ t ->
  existsb (fun b => matchesAt (ignoreCase r) b t) (branches r) = true ->
  test r s = true.
Proof.
  intros Hr -> Hex. unfold test. rewrite Hr.
  apply search_iff. now exists a, t.
Qed.

Lemma matchesAt_class_branch (w rest : jsstring) (sep : N) :
  In sep (str "-_ ") ->
  map canonicalize w = map canonicalize (str "not" ++ [sep] ++ str "found") ->
  matchesAt true (lit "not" ++ [Cls (str "-_ ")] ++ lit "found") (w ++ rest)
  = true.
Proof.
  intros Hsep Hw.
  do 9 (destruct w as [|? w]; [discriminate|]).
  destruct w; [|discriminate].
  cbn [str list_ascii_of_string map app] in Hw.
  injection Hw as H1 H2 H3 H4 H5 H6 H7 H8 H9.
  cbn [lit str list_ascii_of_string map app matchesAt atomMatches sameUnit
       existsb].
  rewrite H1, H2, H3, H4, H5, H6, H7, H8, H9.
  cbn in Hsep. destruct Hsep as [<- | [<- | [<- | []]]]; reflexivity.
Qed.

Lemma errorRoute_matches (w rest : jsstring) (word : jsstring) :
  In word errorRouteWords ->
  map canonicalize w = map canonicalize word ->
  existsb (fun b => matchesAt true b (w ++ rest)) (branches re_errorRoute)
  = true.
Proof.
  intros Hword Hw. cbn [re_errorRoute branches existsb].
  destruct Hword as [<- | [<- | [<- | [<- | [<- | []]]]]].
  - assert (H : matchesAt true (lit "404") (w ++ rest) = true)
      by (apply matchesAt_literal; now exists w, rest).
    now rewrite H.
  - assert (H : matchesAt true (lit "error") (w ++ rest) = true)
      by (apply matchesAt_literal; now exists w, rest).
    rewrite H. now rewrite !orb_true_r.
  - rewrite (matchesAt_class_branch w rest 45);
      [now rewrite orb_true_r | cbn; tauto | exact Hw].
  - rewrite (matchesAt_class_branch w rest 95);
      [now rewrite orb_true_r | cbn; tauto | exact Hw].
  - rewrite (matchesAt_class_branch w rest 32);
      [now rewrite orb_true_r | cbn; tauto | exact Hw].
Qed.

(** X3. Whenever the final URL contains 404, error, not-found, not_found
    or "not found" in any letter case, the probe answers NOT_FOUND,
    whatever the response and the page hold. *)
Theorem error_route_is_not_found
    (page : CatalogPage) (a w b word : jsstring) :
  url page = a ++ w ++ b ->
  In word errorRouteWords ->
  map canonicalize w = map canonicalize word ->
  checkBookStatus page = Normal NOT_FOUND
  /\ fst (validateBook page) = false.
Proof.
  intros Hurl Hword Hw.
  assert (Htest : test re_errorRoute (url page) = true).
  { apply (test_unanchored _ _ a (w ++ b)); [reflexivity | exact Hurl|].
    now apply (errorRoute_matches w b word). }
  assert (H : checkBookStatus page = Normal NOT_FOUND).
  { unfold checkBookStatus.
    destruct (catch (goto page) None) as [r|]; [|reflexivity].
    destruct (negb (ok r)); [reflexivity|]. now rewrite Htest. }
  split; [exact H|]. unfold validateBook. now rewrite H.
Qed.

Lemma error_route_is_not_found_witness :
  checkBookStatus Samples.validPage404 = Normal NOT_FOUND
  /\ fst (validateBook Samples.validPage404) = false.
Proof.
  apply (error_route_is_not_found Samples.validPage404
           (str "https://univ.scholarvox.com/catalog/book/docid/888")
           (str "404") (str "12") (str "404"));
    [reflexivity | cbn; tauto | reflexivity].
Defined.


End BookCheckMore.

Module AuthMore.
Import JS JSFacts Auth AuthFacts AuthPolling.

Lemma existsb_filter {A} (f g : A -> bool) (l : list A) :
  existsb g (filter f l) = existsb (fun x => f x && g x) l.
Proof.
  induction l as [|x l IH]; simpl; [reflexivity|].
  destruct (f x); simpl; now rewrite IH.
Qed.

Lemma existsb_pointwise {A} (f g : A -> bool) (l : list A) :
  (forall x, f x = g x) -> existsb f l = existsb g l.
Proof.
  intros H. induction l as [|x l IH]; simpl; [reflexivity|].
  now rewrite H, IH.
Qed.

Lemma forallb_pointwise {A} (f g : A -> bool) (l : list A) :
  (forall x, f x = g x) -> forallb f l = forallb g l.
Proof.
  intros H. induction l as [|x l IH]; simpl; [reflexivity|].
  now rewrite H, IH.
Qed.

Lemma authenticated_eq (all : list Cookie) :
  authenticated (detectAuthFromCookies all) = existsb isPlatformSession all.
Proof.
  unfold isPlatformSession. rewrite <- existsb_filter.
  destruct (detect_cases all) as [(Hex & Ha & _) | (Hex & Ha & _)];
    now rewrite Ha, Hex.
Qed.

(** X5. The flag is the disjunction, over the cookies, of the test
    "platform cookie named sfsessid..."; so adding cookies to a jar never
    turns an authenticated answer into an unauthenticated one, and the
    evidence list is empty exactly when the answer is unauthenticated. *)
Theorem authenticated_is_monotone (all : list Cookie) :
  authenticated (detectAuthFromCookies all) = existsb isPlatformSession all
  /\ (forall before after,
        authenticated (detectAuthFromCookies all) = true ->
        authenticated (detectAuthFromCookies (before ++ all ++ after)) = true)
  /\ (matched (detectAuthFromCookies all) = [] <->
      authenticated (detectAuthFromCookies all) = false).
Proof.
  split; [apply authenticated_eq|]. split.
  - intros before after. rewrite !authenticated_eq, !existsb_app.
    intros ->. now rewrite orb_true_r.
  - destruct (detect_cases all) as [(Hex & Ha & Hm) | (Hex & Ha & Hm)];
      rewrite Ha, Hm; [|tauto].
    split; [|discriminate]. intros Hnil. exfalso.
    apply existsb_exists in Hex as (c & Hin & Hc).
    assert (Hc' : In c (filter isSessionCookie (filter onScholarvox all)))
      by (apply filter_In; now split).
    apply (in_map nameAtDomain) in Hc'. now rewrite Hnil in Hc'.
Qed.

(** X6. Only the session cookies of the platform matter: dropping every
    other cookie, the preference and tracking families included, changes
    no field of the answer; and the note is one of two texts, fixed by the
    flag (the text of the second rule, "via SFSESSID + signal", is never
    produced). *)
Theorem only_platform_session_cookies_matter (all : list Cookie) :
  detectAuthFromCookies all
  = detectAuthFromCookies (filter isPlatformSession all)
  /\ note (detectAuthFromCookies all)
     = (if authenticated (detectAuthFromCookies all)
        then str "Authenticated (SFSESSID on scholarvox)."
        else str "Not authenticated: missing SFSESSID on scholarvox.com.").
Proof.
  split.
  - assert (Hsvx : filter onScholarvox (filter isPlatformSession all)
                   = filter isPlatformSession all).
    { rewrite filter_filter. apply filter_ext. intros c.
      unfold isPlatformSession.
      now destruct (onScholarvox c), (isSessionCookie c). }
    assert (Hsess : filter isSessionCookie (filter isPlatformSession all)
                    = filter isSessionCookie (filter onScholarvox all)).
    { rewrite !filter_filter. apply filter_ext. intros c.
      unfold isPlatformSession.
      now destruct (onScholarvox c), (isSessionCookie c). }
    assert (Hex : existsb isSessionCookie (filter isPlatformSession all)
                  = existsb isSessionCookie (filter onScholarvox all)).
    { rewrite !existsb_filter. clear. induction all as [|c l IH];
        simpl; [reflexivity|]. rewrite IH. unfold isPlatformSession.
      now destruct (onScholarvox c), (isSessionCookie c). }
    unfold detectAuthFromCookies. rewrite Hsvx, Hex.
    destruct (existsb isSessionCookie (filter onScholarvox all)).
    + now rewrite !pushSessionCookies_eq, Hsess.
    + reflexivity.
  - unfold detectAuthFromCookies.
    now destruct (existsb isSessionCookie (filter onScholarvox all)).
Qed.

(** ** Polling *)

Lemma waitAndDetectAuth_flag (polls : list (list Cookie))
    (finalCookies : list Cookie) :
  authenticated (waitAndDetectAuth polls finalCookies)
  = existsb jarAuthenticates (polls ++ [finalCookies]).
Proof.
  induction polls as [|jar polls IH]; simpl.
  - unfold jarAuthenticates. now rewrite orb_false_r.
  - unfold jarAuthenticates at 1.
    destruct (authenticated (detectAuthFromCookies jar)) eqn:E;
      simpl; [exact E | exact IH].
Qed.

Lemma waitAndDetectAuth_first (before after : list (list Cookie))
    (jar finalCookies : list Cookie) :
  forallb (fun j => negb (jarAuthenticates j)) before = true ->
  jarAuthenticates jar = true ->
  waitAndDetectAuth (before ++ jar :: after) finalCookies
  = detectAuthFromCookies jar.
Proof.
  unfold jarAuthenticates. intros Hbefore Hjar.
  induction before as [|j before IH]; simpl.
  - now rewrite Hjar.
  - simpl in Hbefore. apply andb_true_iff in Hbefore as [Hj Hrest].
    apply negb_true_iff in Hj. rewrite Hj. now apply IH.
Qed.

Lemma waitAndDetectAuth_answers (polls : list (list Cookie))
    (finalCookies : list Cookie) :
  exists jar, In jar (polls ++ [finalCookies])
              /\ waitAndDetectAuth polls finalCookies
                 = detectAuthFromCookies jar.
Proof.
  induction polls as [|jar polls IH]; simpl.
  - exists finalCookies. auto.
  - destruct (authenticated (detectAuthFromCookies jar)).
    + exists jar. auto.
    + destruct IH as (j & Hin & Hj). exists j. auto.
Qed.

Lemma waitAndDetectAuth_sessions (polls : list (list Cookie))
    (finalCookies : list Cookie) :
  authenticated (waitAndDetectAuth polls finalCookies)
  = existsb (existsb isPlatformSession) (polls ++ [finalCookies]).
Proof.
  rewrite waitAndDetectAuth_flag. apply existsb_pointwise.
  intros jar. apply authenticated_eq.
Qed.

(** X7. [waitAndDetectAuth] always returns the answer of the detector on
    one of the jars it read; it reports authenticated exactly when one of
    them holds a session cookie of the platform; and it returns at the
    first such jar, with that jar's evidence, whatever is read later. *)
Theorem waitAndDetectAuth_reports_first_session
    (polls : list (list Cookie)) (finalCookies : list Cookie) :
  (exists jar, In jar (polls ++ [finalCookies])
               /\ waitAndDetectAuth polls finalCookies
                  = detectAuthFromCookies jar)
  /\ authenticated (waitAndDetectAuth polls finalCookies)
     = existsb (existsb isPlatformSession) (polls ++ [finalCookies])
  /\ (forall before jar after,
        polls = before ++ jar :: after ->
        forallb (fun j => negb (existsb isPlatformSession j)) before = true ->
        existsb isPlatformSession jar = true ->
        waitAndDetectAuth polls finalCookies = detectAuthFromCookies jar).
Proof.
  split; [apply waitAndDetectAuth_answers|]. split.
  - apply waitAndDetectAuth_sessions.
  - intros before jar after -> Hbefore Hjar.
    apply waitAndDetectAuth_first.
    + rewrite <- Hbefore. apply forallb_pointwise. intros j.
      unfold jarAuthenticates. now rewrite authenticated_eq.
    + unfold jarAuthenticates. now rewrite authenticated_eq.
Qed.

(** X8. An interactive login reports authenticated exactly when one of
    the jars read during the whole run, in any of its rounds or in the
    last check, holds a session cookie of the platform. *)
Theorem interactive_login_flag
    (rounds : list (list (list Cookie) * list Cookie))
    (lastPolls : list (list Cookie)) (lastFinal : list Cookie) :
  authenticated (performInteractiveLogin rounds lastPolls lastFinal)
  = existsb (existsb isPlatformSession) (jarsOf rounds lastPolls lastFinal).
Proof.
  unfold jarsOf. induction rounds as [|[polls finalCookies] rounds IH].
  - simpl. apply waitAndDetectAuth_sessions.
  - cbn [performInteractiveLogin flat_map fst snd].
    rewrite <- (app_assoc (polls ++ [finalCookies])), existsb_app.
    rewrite <- (waitAndDetectAuth_sessions polls finalCookies).
    destruct (authenticated (waitAndDetectAuth polls finalCookies)) eqn:E;
      simpl; [exact E | exact IH].
Qed.

End AuthMore.

Module PrintToPdfMore.
Import JS PrintToPdf PrintToPdfFacts PageCapture.
Import Floats.

(** ** The candidate *)

Lemma insert_In (x c : Candidate) (l : list Candidate) :
  In c (insert x l) <-> c = x \/ In c l.
Proof.
  induction l as [|y l IH]; simpl.
  - intuition congruence.
  - destruct (0 <? compareFn x y)%float; simpl; [rewrite IH|];
      intuition congruence.
Qed.

Lemma sort_In (c : Candidate) (l : list Candidate) :
  In c (sort l) <-> In c l.
Proof.
  unfold sort. induction l as [|x l IH]; simpl; [tauto|].
  rewrite insert_In, IH. intuition congruence.
Qed.

Lemma insert_not_nil (x : Candidate) (l : list Candidate) : insert x l <> [].
Proof.
  destruct l as [|y l]; simpl; [discriminate|].
  destruct (0 <? compareFn x y)%float; discriminate.
Qed.

Lemma sort_nil_iff (l : list Candidate) : sort l = [] <-> l = [].
Proof.
  destruct l as [|x l]; [simpl; tauto|].
  split; [|discriminate]. unfold sort; simpl. intros H.
  now destruct (insert_not_nil _ _ H).
Qed.

Lemma pick_In (doc : Document) (c : Candidate) :
  pickLargeCandidate doc = Some c -> In c (candidatesOf doc).
Proof.
  unfold pickLargeCandidate. fold (candidatesOf doc). intros H.
  apply sort_In. destruct (sort (candidatesOf doc)); [discriminate|].
  injection H as ->. now left.
Qed.

Lemma pick_None_iff (doc : Document) :
  pickLargeCandidate doc = None <-> candidatesOf doc = [].
Proof.
  unfold pickLargeCandidate. fold (candidatesOf doc).
  rewrite <- sort_nil_iff. destruct (sort (candidatesOf doc)); simpl;
    split; congruence.
Qed.

(** What makes a div a candidate besides its area. *)
Lemma div_has_background (div : HTMLDivElement) :
  negb (Nat.eqb (List.length (backgroundImage div)) 0)
  && negb (isPrefix (backgroundImage div) (str "none")
           && isPrefix (str "none") (backgroundImage div)) = true <->
  backgroundImage div <> [] /\ backgroundImage div <> str "none".
Proof.
  rewrite andb_true_iff, !negb_true_iff. split.
  - intros [Hlen Hnone]. split.
    + intros E. now rewrite E in Hlen.
    + intros E. apply JSFacts.isPrefix_both in E. congruence.
  - intros [Hnil Hnone]. split.
    + destruct (backgroundImage div); [now destruct Hnil | reflexivity].
    + destruct (isPrefix (backgroundImage div) (str "none")
                && isPrefix (str "none") (backgroundImage div)) eqn:E;
        [|reflexivity].
      apply JSFacts.isPrefix_both in E. now destruct Hnone.
Qed.

Lemma candidatesOf_In (doc : Document) (c : Candidate) :
  In c (candidatesOf doc) ->
  largeArea (area c) = true
  /\ match el c with
     | Img img =>
       In img (images doc)
       /\ area c = (num (naturalWidth img) * num (naturalHeight img))%float
     | Canvas cv =>
       In cv (canvases doc)
       /\ area c = (num (width cv) * num (height cv))%float
     | Div div =>
       In div (divs doc)
       /\ area c = (rect_width (boundingClientRect div)
                    * rect_height (boundingClientRect div))%float
       /\ backgroundImage div <> [] /\ backgroundImage div <> str "none"
     end.
Proof.
  unfold candidatesOf, imageCandidates, canvasCandidates, divCandidates.
  rewrite !in_app_iff, !in_flat_map.
  intros [(img & Hin & Hc) | [(cv & Hin & Hc) | (div & Hin & Hc)]].
  - destruct (largeArea _) eqn:Hl in Hc; [|destruct Hc].
    destruct Hc as [<- | []]. cbn [el area]. auto.
  - destruct (largeArea _) eqn:Hl in Hc; [|destruct Hc].
    destruct Hc as [<- | []]. cbn [el area]. auto.
  - match type of Hc with
    | In _ (if ?cond then _ else _) => destruct cond eqn:Hcond
    end; [|destruct Hc].
    destruct Hc as [<- | []]. cbn [el area].
    rewrite <- andb_assoc in Hcond.
    apply andb_true_iff in Hcond as [Hl Hbg].
    apply div_has_background in Hbg. tauto.
Qed.

(** ** The retry loop *)

Lemma fallsThrough_step (world : nat -> Document) (attempts k : nat) :
  fallsThrough (world k) ->
  waitForRender (S attempts) k world = waitForRender attempts (S k) world.
Proof.
  unfold fallsThrough. cbn [waitForRender].
  destruct (pickLargeCandidate (world k)); [|reflexivity].
  now intros ->.
Qed.

(** Every run of the loop: either some iteration ends it, all earlier ones
    having fallen through, or all iterations fall through and it times
    out. *)
Lemma waitForRender_inv (world : nat -> Document) (attempts k : nat) :
  (exists j c,
      k <= j < k + attempts
      /\ (forall i, k <= i < j -> fallsThrough (world i))
      /\ pickLargeCandidate (world j) = Some c
      /\ ((exists info, validate c = Normal (Some info)
                        /\ waitForRender attempts k world = Normal info)
          \/ (exists e, validate c = Throw e
                        /\ waitForRender attempts k world = Throw e)))
  \/ ((forall i, k <= i < k + attempts -> fallsThrough (world i))
      /\ waitForRender attempts k world = Normal (NotRendered timedOut)).
Proof.
  revert k. induction attempts as [|n IH]; intros k.
  - right. split; [intros i Hi; lia | reflexivity].
  - assert (Hnext : fallsThrough (world k) ->
                    waitForRender (S n) k world = waitForRender n (S k) world)
      by apply fallsThrough_step.
    destruct (pickLargeCandidate (world k)) as [c|] eqn:Hpick.
    + destruct (validate c) as [[info|]|e] eqn:Hval.
      * left. exists k, c. split; [lia|]. split; [intros i Hi; lia|].
        split; [exact Hpick|]. left. exists info. split; [exact Hval|].
        cbn [waitForRender]. now rewrite Hpick, Hval.
      * assert (Hk : fallsThrough (world k))
          by (unfold fallsThrough; now rewrite Hpick).
        rewrite (Hnext Hk).
        destruct (IH (S k)) as [(j & c' & Hj & Hbefore & R) | (Hall & R)].
        -- left. exists j, c'. split; [lia|]. split; [|exact R].
           intros i Hi. destruct (Nat.eq_dec i k) as [-> | Hne];
             [exact Hk | apply Hbefore; lia].
        -- right. split; [|exact R].
           intros i Hi. destruct (Nat.eq_dec i k) as [-> | Hne];
             [exact Hk | apply Hall; lia].
      * left. exists k, c. split; [lia|]. split; [intros i Hi; lia|].
        split; [exact Hpick|]. right. exists e. split; [exact Hval|].
        cbn [waitForRender]. now rewrite Hpick, Hval.
    + assert (Hk : fallsThrough (world k))
        by (unfold fallsThrough; now rewrite Hpick).
      rewrite (Hnext Hk).
      destruct (IH (S k)) as [(j & c' & Hj & Hbefore & R) | (Hall & R)].
      * left. exists j, c'. split; [lia|]. split; [|exact R].
        intros i Hi. destruct (Nat.eq_dec i k) as [-> | Hne];
          [exact Hk | apply Hbefore; lia].
      * right. split; [|exact R].
        intros i Hi. destruct (Nat.eq_dec i k) as [-> | Hne];
          [exact Hk | apply Hall; lia].
Qed.

Lemma waitForRender_ext (world world' : nat -> Document) (attempts k : nat) :
  (forall i, k <= i < k + attempts -> world i = world' i) ->
  waitForRender attempts k world = waitForRender attempts k world'.
Proof.
  revert k. induction attempts as [|n IH]; intros k Hsame; [reflexivity|].
  cbn [waitForRender]. rewrite <- (Hsame k) by lia.
  rewrite (IH (S k)) by (intros i Hi; apply Hsame; lia).
  reflexivity.
Qed.

(** What a successful validation says of the candidate. *)
Lemma validate_success (c : Candidate) (info : RenderInfo) :
  validate c = Normal (Some info) ->
  match el c with
  | Img img =>
    complete img = true
    /\ (10 < naturalWidth img)%Z /\ (10 < naturalHeight img)%Z
    /\ info = Rendered KImg (num (naturalWidth img)) (num (naturalHeight img))
                (str "image natural dimensions")
  | Canvas cv =>
    (10 < width cv)%Z /\ (10 < height cv)%Z
    /\ canvasHasNonWhitePixel cv = Normal true
    /\ info = Rendered KCanvas (num (width cv)) (num (height cv))
                (str "canvas pixels")
  | Div div =>
    (10 <? rect_width (boundingClientRect div))%float = true
    /\ (10 <? rect_height (boundingClientRect div))%float = true
    /\ info = Rendered KDiv (Math_round (rect_width (boundingClientRect div)))
                (Math_round (rect_height (boundingClientRect div)))
                (str "div background")
  end.
Proof.
  unfold validate. destruct (el c) as [img|cv|div].
  - destruct (complete img); cbn [andb]; [|discriminate].
    destruct (Z.ltb_spec 10 (naturalWidth img)); cbn [andb]; [|discriminate].
    destruct (Z.ltb_spec 10 (naturalHeight img)); [|discriminate].
    intros Hinfo. injection Hinfo as <-. auto.
  - destruct (Z.ltb_spec 10 (width cv)); cbn [andb]; [|discriminate].
    destruct (Z.ltb_spec 10 (height cv)); [|discriminate].
    destruct (canvasHasNonWhitePixel cv) as [[|]|e]; try discriminate.
    intros Hinfo. injection Hinfo as <-. auto.
  - destruct (10 <? rect_width (boundingClientRect div))%float;
      cbn [andb]; [|discriminate].
    destruct (10 <? rect_height (boundingClientRect div))%float;
      [|discriminate].
    intros Hinfo. injection Hinfo as <-. auto.
Qed.



(** X9. The stabilisation looks at the document at most thirty times: two
    runs that see the same documents in their first thirty iterations end
    the same way, whatever the document becomes afterwards. *)
Theorem render_wait_reads_thirty_snapshots (world world' : nat -> Document) :
  (forall i, i < 30 -> world i = world' i) ->
  renderInfo world = renderInfo world'.
Proof.
  intros Hsame. rewrite (renderInfo_loop world), (renderInfo_loop world').
  apply waitForRender_ext.
  intros i Hi. apply Hsame. lia.
Qed.

Lemma render_wait_reads_thirty_snapshots_witness :
  renderInfo (fun k => Samples.canvasDocument
                         (if Nat.ltb k 30 then Samples.placeholderCanvas
                          else Samples.drawnCanvas))
  = renderInfo (fun _ => Samples.canvasDocument Samples.placeholderCanvas).
Proof.
  apply render_wait_reads_thirty_snapshots. intros i Hi.
  apply Nat.ltb_lt in Hi. now rewrite Hi.
Defined.

(** X10. The picked candidate is an element of the document whose area
    exceeds 1500 x 1500 (a div only with a background image), and its
    recorded area is that of the element. *)
Theorem picked_candidate_is_a_large_element (doc : Document) (c : Candidate) :
  pickLargeCandidate doc = Some c ->
  largeArea (area c) = true
  /\ match el c with
     | Img img =>
       In img (images doc)
       /\ area c = (num (naturalWidth img) * num (naturalHeight img))%float
     | Canvas cv =>
       In cv (canvases doc)
       /\ area c = (num (width cv) * num (height cv))%float
     | Div div =>
       In div (divs doc)
       /\ area c = (rect_width (boundingClientRect div)
                    * rect_height (boundingClientRect div))%float
       /\ backgroundImage div <> [] /\ backgroundImage div <> str "none"
     end.
Proof. intros Hpick. now apply candidatesOf_In, pick_In. Qed.

Lemma picked_candidate_is_a_large_element_witness :
  largeArea (num 2000 * num 2600) = true
  /\ In Samples.drawnCanvas
        (canvases (Samples.canvasDocument Samples.drawnCanvas)).
Proof.
  destruct (picked_candidate_is_a_large_element
              (Samples.canvasDocument Samples.drawnCanvas)
              {| el := Canvas Samples.drawnCanvas;
                 area := (num 2000 * num 2600)%float |} eq_refl)
    as (Hlarge & Hin & _).
  split; [exact Hlarge | exact Hin].
Defined.

(** X11. A success of the stabilisation reports an element that was in
    the document at one of the thirty iterations, of area above
    1500 x 1500, which passed the validation of its kind, with the
    dimensions of that element; every earlier iteration had found no
    valid candidate. *)
Theorem render_success_is_sound (world : nat -> Document)
    (k : Kind) (w h : float) (source : jsstring) :
  renderInfo world = Normal (Rendered k w h source) ->
  exists j c,
    j < 30
    /\ (forall i, i < j -> fallsThrough (world i))
    /\ pickLargeCandidate (world j) = Some c
    /\ In c (candidatesOf (world j))
    /\ largeArea (area c) = true
    /\ kind c = k
    /\ match el c with
       | Img img =>
         In img (images (world j)) /\ complete img = true
         /\ (10 < naturalWidth img)%Z /\ (10 < naturalHeight img)%Z
         /\ w = num (naturalWidth img) /\ h = num (naturalHeight img)
       | Canvas cv =>
         In cv (canvases (world j))
         /\ (10 < width cv)%Z /\ (10 < height cv)%Z
         /\ canvasHasNonWhitePixel cv = Normal true
         /\ w = num (width cv) /\ h = num (height cv)
       | Div div =>
         In div (divs (world j))
         /\ (10 <? rect_width (boundingClientRect div))%float = true
         /\ (10 <? rect_height (boundingClientRect div))%float = true
         /\ w = Math_round (rect_width (boundingClientRect div))
         /\ h = Math_round (rect_height (boundingClientRect div))
       end.
Proof.
  rewrite renderInfo_loop. intros Hok.
  destruct (waitForRender_inv world 30 0)
    as [(j & c & Hj & Hbefore & Hpick & Hend) | (_ & Htimeout)];
    [|congruence].
  destruct Hend as [(info & Hval & Hres) | (e & _ & Hres)]; [|congruence].
  assert (info = Rendered k w h source) by congruence. subst info.
  exists j, c. split; [lia|]. split; [intros i Hi; apply Hbefore; lia|].
  split; [exact Hpick|]. pose proof (pick_In _ _ Hpick) as Hin.
  split; [exact Hin|].
  destruct (candidatesOf_In _ _ Hin) as [Hlarge Hel].
  split; [exact Hlarge|].
  pose proof (validate_success _ _ Hval) as Hvalid.
  unfold kind. destruct (el c) as [img|cv|div].
  - destruct Hvalid as (Hc & Hw & Hh & Hinfo). injection Hinfo as -> -> -> _.
    tauto.
  - destruct Hvalid as (Hw & Hh & Hcv & Hinfo). injection Hinfo as -> -> -> _.
    tauto.
  - destruct Hvalid as (Hw & Hh & Hinfo). injection Hinfo as -> -> -> _.
    tauto.
Qed.

Lemma render_success_is_sound_witness :
  exists j c,
    j < 30
    /\ pickLargeCandidate
         (Samples.canvasDocument
            (if Nat.ltb j 3 then Samples.placeholderCanvas
             else Samples.drawnCanvas)) = Some c
    /\ kind c = KCanvas.
Proof.
  destruct (render_success_is_sound _ _ _ _ _ drawn_canvas_accepted)
    as (j & c & Hj & _ & Hpick & _ & _ & Hkind & _).
  exists j, c. split; [exact Hj|]. split; [exact Hpick | exact Hkind].
Defined.

(** X12. The stabilisation ends in its time-out exactly when each of the
    thirty iterations found no candidate or a candidate that failed its
    validation. *)
Theorem render_times_out_iff (world : nat -> Document) :
  renderInfo world = Normal (NotRendered timedOut) <->
  forall i, i < 30 -> fallsThrough (world i).
Proof.
  rewrite renderInfo_loop. split.
  - intros Hout.
    destruct (waitForRender_inv world 30 0)
      as [(j & c & Hj & _ & _ & Hend) | (Hall & _)].
    + destruct Hend as [(info & Hval & Hres) | (e & _ & Hres)];
        [|congruence].
      assert (info = NotRendered timedOut) by congruence. subst info.
      pose proof (validate_success _ _ Hval) as Hvalid.
      destruct (el c);
        [ destruct Hvalid as (_ & _ & _ & Hinfo)
        | destruct Hvalid as (_ & _ & _ & Hinfo)
        | destruct Hvalid as (_ & _ & Hinfo) ]; discriminate Hinfo.
    + intros i Hi. apply Hall. lia.
  - intros Hall.
    destruct (waitForRender_inv world 30 0)
      as [(j & c & Hj & _ & Hpick & Hend) | (_ & Hres)]; [|exact Hres].
    assert (Hf : fallsThrough (world j)) by (apply Hall; lia).
    unfold fallsThrough in Hf. rewrite Hpick in Hf.
    destruct Hend as [(info & Hval & _) | (e & Hval & _)]; congruence.
Qed.



(** ** Isolation of one page *)

Lemma hideOthers_length (target index : Z) (children : list Style) :
  List.length (hideOthers target index children) = List.length children.
Proof.
  revert index. induction children as [|el rest IH]; intros index; simpl;
    [reflexivity | now rewrite IH].
Qed.

Lemma hideOthers_nth (target index : Z) (children : list Style)
    (i : nat) (st : Style) :
  nth_error (hideOthers target index children) i = Some st ->
  display st = if (index + Z.of_nat i =? target)%Z
               then str "block" else str "none".
Proof.
  revert index i. induction children as [|el rest IH]; intros index i.
  - destruct i; discriminate.
  - destruct i as [|i]; cbn [hideOthers nth_error].
    + intros H. injection H as <-. rewrite Z.add_0_r.
      now destruct (index =? target)%Z.
    + intros H. apply IH in H.
      now replace (index + Z.of_nat (S i))%Z with (index + 1 + Z.of_nat i)%Z
        by lia.
Qed.

(** X14. Isolating page [p] of [n] keeps all children and sets the display
    of the child number [p] to block and of every other child to none; for
    [p] below 1 or above [n] every page is hidden. *)
Theorem isolation_shows_only_the_target (targetPage : Z)
    (children : list Style) :
  exists shown,
    isolatePage targetPage (Some children) = Some shown
    /\ List.length shown = List.length children
    /\ (forall i st, nth_error shown i = Some st ->
          display st = if (Z.of_nat i + 1 =? targetPage)%Z
                       then str "block" else str "none")
    /\ ((targetPage < 1 \/ Z.of_nat (List.length children) < targetPage)%Z ->
        Forall (fun st => display st = str "none") shown).
Proof.
  exists (hideOthers (targetPage - 1) 0 children).
  split; [reflexivity|]. split; [apply hideOthers_length|].
  assert (Hnth : forall i st,
             nth_error (hideOthers (targetPage - 1) 0 children) i = Some st ->
             display st = if (Z.of_nat i + 1 =? targetPage)%Z
                          then str "block" else str "none").
  { intros i st H. apply hideOthers_nth in H. rewrite H.
    destruct (Z.eqb_spec (0 + Z.of_nat i) (targetPage - 1)),
             (Z.eqb_spec (Z.of_nat i + 1) targetPage);
      try reflexivity; lia. }
  split; [exact Hnth|].
  intros Hout. apply Forall_forall. intros st Hin.
  apply In_nth_error in Hin as [i Hi].
  assert (Hlt : i < List.length children).
  { rewrite <- (hideOthers_length (targetPage - 1) 0).
    apply nth_error_Some. congruence. }
  rewrite (Hnth i st Hi).
  destruct (Z.eqb_spec (Z.of_nat i + 1) targetPage); [lia | reflexivity].
Qed.

(** ** The page size of [downloadBook] *)

Lemma sentinel_is_default : (0.4 =? 0.4)%float = true.
Proof. reflexivity. Qed.

(** X15. Whenever the page size comes from an image, [downloadBook]
    prints with the very options [printScholarVoxPageToPDF] uses without an
    explicit scale; otherwise it prints the reference format, 11.25in by
    13.875in at scale 0.4, whatever the page element or the window
    measure. *)
Theorem download_prints_like_automatic_mode (doc : Document) :
  (dim_source (pageDimensions doc) = str "image natural dimensions" ->
   downloadPdfOptions doc = printOptions None doc)
  /\ (dim_source (pageDimensions doc) <> str "image natural dimensions" ->
      downloadPdfOptions doc =
      {| pdf_width := 11.25; pdf_height := 13.875; printBackground := true;
         margin_top := 0; margin_right := 0; margin_bottom := 0;
         margin_left := 0; pdf_scale := 0.4; preferCSSPageSize := false |}).
Proof.
  unfold downloadPdfOptions, downloadDims, printOptions, pageDimensions,
    pdfOptions, finalScale, autoScale, pageWidthInches, pageHeightInches,
    referenceScale, referenceWidth.
  rewrite sentinel_is_default; cbn [negb].
  destruct (largestImage (images doc)) as [imgEl|].
  - destruct ((0 <? naturalWidth imgEl)%Z && (0 <? naturalHeight imgEl)%Z).
    + split; [reflexivity|]. cbn [dim_source]. intros H. now destruct H.
    + split; [|reflexivity].
      destruct (pageElement doc); cbn [dim_source]; discriminate.
  - split; [|reflexivity].
    destruct (pageElement doc); cbn [dim_source]; discriminate.
Qed.

End PrintToPdfMore.

Module CredentialsMore.
Import JS Credentials CredentialsFacts Unicode.
Local Open Scope N_scope.

Section Arithmetic.
#[local] Ltac Zify.zify_post_hook ::= Z.to_euclidean_division_equations.

(** Exclusive or with a key character changes the low seven bits only. *)
Lemma lxor_high_bits (c k : N) : k < 128 -> N.lxor c k / 128 = c / 128.
Proof.
  intros Hk. change 128 with (2 ^ 7).
  rewrite <- !N.shiftr_div_pow2, N.shiftr_lxor, (N.shiftr_div_pow2 k).
  rewrite (N.div_small k) by exact Hk. apply N.lxor_0_r.
Qed.

Lemma same_block_high (x c : N) :
  x / 128 = c / 128 -> isHighSurrogate x = isHighSurrogate c.
Proof.
  intros H. unfold isHighSurrogate.
  destruct (N.leb_spec 55296 x), (N.leb_spec 55296 c),
           (N.leb_spec x 56319), (N.leb_spec c 56319);
    try reflexivity; lia.
Qed.

Lemma same_block_low (x c : N) :
  x / 128 = c / 128 -> isLowSurrogate x = isLowSurrogate c.
Proof.
  intros H. unfold isLowSurrogate.
  destruct (N.leb_spec 56320 x), (N.leb_spec 56320 c),
           (N.leb_spec x 57343), (N.leb_spec c 57343);
    try reflexivity; lia.
Qed.

Lemma same_block_unit (x c : N) :
  x / 128 = c / 128 -> (x <? 65536) = (c <? 65536).
Proof.
  intros H. destruct (N.ltb_spec x 65536), (N.ltb_spec c 65536);
    try reflexivity; lia.
Qed.

(** The UTF-8 bytes of one character, and what they decode to. *)
Lemma two_bytes (c : N) :
  128 <= c < 2048 ->
  let b0 := 192 + c / 64 in
  let b1 := 128 + c mod 64 in
  194 <= b0 <= 223 /\ 128 <= b1 <= 191 /\ (b0 - 192) * 64 + (b1 - 128) = c.
Proof. intros Hc b0 b1. subst b0 b1. repeat split; lia. Qed.

Lemma three_bytes (c : N) :
  2048 <= c < 65536 -> ~ (55296 <= c <= 57343) ->
  let b0 := 224 + c / 4096 in
  let b1 := 128 + (c / 64) mod 64 in
  let b2 := 128 + c mod 64 in
  224 <= b0 <= 239 /\ 128 <= b1 <= 191 /\ 128 <= b2 <= 191
  /\ (b0 = 224 -> 160 <= b1) /\ (b0 = 237 -> b1 <= 159)
  /\ (b0 - 224) * 4096 + (b1 - 128) * 64 + (b2 - 128) = c.
Proof. intros Hc Hs b0 b1 b2. subst b0 b1 b2. repeat split; lia. Qed.

Lemma four_bytes (c d : N) :
  55296 <= c <= 56319 -> 56320 <= d <= 57343 ->
  let cp := 65536 + (c - 55296) * 1024 + (d - 56320) in
  let b0 := 240 + cp / 262144 in
  let b1 := 128 + (cp / 4096) mod 64 in
  let b2 := 128 + (cp / 64) mod 64 in
  let b3 := 128 + cp mod 64 in
  240 <= b0 <= 244 /\ 128 <= b1 <= 191 /\ 128 <= b2 <= 191
  /\ 128 <= b3 <= 191
  /\ (b0 = 240 -> 144 <= b1) /\ (b0 = 244 -> b1 <= 143)
  /\ (b0 - 240) * 262144 + (b1 - 128) * 4096 + (b2 - 128) * 64 + (b3 - 128)
     = cp
  /\ 65536 <= cp
  /\ 55296 + (cp - 65536) / 1024 = c /\ 56320 + (cp - 65536) mod 1024 = d.
Proof.
  intros Hc Hd cp b0 b1 b2 b3. subst b0 b1 b2 b3 cp. repeat split; lia.
Qed.

End Arithmetic.

(** ** Unfolding equations *)

Lemma utf8Encode_cons (c : N) (s' : jsstring) :
  utf8Encode (c :: s') =
  if c <? 128 then c :: utf8Encode s'
  else if c <? 2048 then
    [192 + c / 64; 128 + c mod 64] ++ utf8Encode s'
  else if isHighSurrogate c then
    match s' with
    | d :: s'' =>
      if isLowSurrogate d then
        let cp := 65536 + (c - 55296) * 1024 + (d - 56320) in
        [240 + cp / 262144; 128 + (cp / 4096) mod 64;
         128 + (cp / 64) mod 64; 128 + cp mod 64] ++ utf8Encode s''
      else replacementBytes ++ utf8Encode s'
    | [] => replacementBytes
    end
  else if isLowSurrogate c then replacementBytes ++ utf8Encode s'
  else
    [224 + c / 4096; 128 + (c / 64) mod 64; 128 + c mod 64]
    ++ utf8Encode s'.
Proof. reflexivity. Qed.

Lemma wellFormed_cons (c : N) (s' : jsstring) :
  wellFormed (c :: s') =
  if isHighSurrogate c then
    match s' with
    | d :: s'' => isLowSurrogate d && wellFormed s''
    | [] => false
    end
  else negb (isLowSurrogate c) && (c <? 65536) && wellFormed s'.
Proof. reflexivity. Qed.

Lemma continuation_iff (b : N) : isContinuation b = true <-> 128 <= b <= 191.
Proof.
  unfold isContinuation. rewrite andb_true_iff, !N.leb_le. tauto.
Qed.

Lemma range_true (lo hi b : N) :
  lo <= b <= hi -> (lo <=? b) && (b <=? hi) = true.
Proof. intros [H1 H2]. now rewrite (proj2 (N.leb_le _ _) H1), (proj2 (N.leb_le _ _) H2). Qed.

Lemma range_false (lo hi b : N) :
  b < lo \/ hi < b -> (lo <=? b) && (b <=? hi) = false.
Proof.
  intros [H | H]; apply andb_false_iff; [left | right]; apply N.leb_gt; lia.
Qed.

(** ** Decoding the bytes of one character *)

Lemma decode_one (b0 : N) (r : list N) :
  b0 < 128 -> utf8Decode (b0 :: r) = b0 :: utf8Decode r.
Proof.
  intros H. cbn [utf8Decode]. now rewrite (proj2 (N.ltb_lt _ _) H).
Qed.

Lemma decode_two (b0 b1 : N) (r : list N) :
  194 <= b0 <= 223 -> 128 <= b1 <= 191 ->
  utf8Decode (b0 :: b1 :: r)
  = ((b0 - 192) * 64 + (b1 - 128)) :: utf8Decode r.
Proof.
  intros H0 H1. cbn [utf8Decode].
  rewrite (proj2 (N.ltb_ge _ _)) by lia.
  rewrite (range_true 194 223) by exact H0.
  now rewrite (proj2 (continuation_iff b1) H1).
Qed.

Lemma decode_three (b0 b1 b2 : N) (r : list N) :
  224 <= b0 <= 239 -> 128 <= b1 <= 191 -> 128 <= b2 <= 191 ->
  (b0 = 224 -> 160 <= b1) -> (b0 = 237 -> b1 <= 159) ->
  utf8Decode (b0 :: b1 :: b2 :: r)
  = ((b0 - 224) * 4096 + (b1 - 128) * 64 + (b2 - 128)) :: utf8Decode r.
Proof.
  intros H0 H1 H2 Hlow Hhigh. cbn [utf8Decode].
  rewrite (proj2 (N.ltb_ge _ _)) by lia.
  rewrite (range_false 194 223) by lia.
  rewrite (range_true 224 239) by exact H0.
  assert (Hsecond : secondOf3 b0 b1 = true).
  { unfold secondOf3.
    destruct (N.eqb_spec b0 224) as [E | _];
      [apply range_true; specialize (Hlow E); lia|].
    destruct (N.eqb_spec b0 237) as [E | _];
      [apply range_true; specialize (Hhigh E); lia|].
    now apply continuation_iff. }
  rewrite Hsecond. now rewrite (proj2 (continuation_iff b2) H2).
Qed.

Lemma decode_four (b0 b1 b2 b3 : N) (r : list N) :
  240 <= b0 <= 244 -> 128 <= b1 <= 191 -> 128 <= b2 <= 191 ->
  128 <= b3 <= 191 ->
  (b0 = 240 -> 144 <= b1) -> (b0 = 244 -> b1 <= 143) ->
  utf8Decode (b0 :: b1 :: b2 :: b3 :: r)
  = unitsOf ((b0 - 240) * 262144 + (b1 - 128) * 4096
             + (b2 - 128) * 64 + (b3 - 128))
    ++ utf8Decode r.
Proof.
  intros H0 H1 H2 H3 Hlow Hhigh. cbn [utf8Decode].
  rewrite (proj2 (N.ltb_ge _ _)) by lia.
  rewrite (range_false 194 223) by lia.
  rewrite (range_false 224 239) by lia.
  rewrite (range_true 240 244) by exact H0.
  assert (Hsecond : secondOf4 b0 b1 = true).
  { unfold secondOf4.
    destruct (N.eqb_spec b0 240) as [E | _];
      [apply range_true; specialize (Hlow E); lia|].
    destruct (N.eqb_spec b0 244) as [E | _];
      [apply range_true; specialize (Hhigh E); lia|].
    now apply continuation_iff. }
  rewrite Hsecond.
  now rewrite (proj2 (continuation_iff b2) H2),
              (proj2 (continuation_iff b3) H3).
Qed.

(** ** Well-formed strings *)

Lemma surrogate_ranges (c : N) :
  (isHighSurrogate c = true <-> 55296 <= c <= 56319)
  /\ (isLowSurrogate c = true <-> 56320 <= c <= 57343).
Proof.
  unfold isHighSurrogate, isLowSurrogate.
  rewrite !andb_true_iff, !N.leb_le. tauto.
Qed.

Lemma not_surrogate (c : N) :
  isHighSurrogate c = false -> isLowSurrogate c = false ->
  ~ (55296 <= c <= 57343).
Proof.
  intros Hh Hl Hc. destruct (surrogate_ranges c) as [H1 H2].
  destruct (N.le_gt_cases c 56319).
  - rewrite (proj2 H1) in Hh by lia. discriminate.
  - rewrite (proj2 H2) in Hl by lia. discriminate.
Qed.

(** Encoding a well-formed string gives bytes, and decoding them gives the
    string back. *)
Lemma utf8_roundtrip_bounded (n : nat) (s : jsstring) :
  (List.length s <= n)%nat -> wellFormed s = true ->
  utf8Decode (utf8Encode s) = s
  /\ Forall (fun b => b < 256) (utf8Encode s).
Proof.
  revert s. induction n as [|n IH]; intros s Hlen Hwf.
  { destruct s; [now split | simpl in Hlen; lia]. }
  destruct s as [|c s']; [now split|].
  rewrite wellFormed_cons in Hwf. rewrite utf8Encode_cons.
  simpl in Hlen.
  destruct (isHighSurrogate c) eqn:Hhigh.
  - destruct s' as [|d s'']; [discriminate|].
    apply andb_true_iff in Hwf as [Hlow Hwf]. simpl in Hlen.
    destruct (IH s'') as [Hround Hbytes]; [lia | exact Hwf|].
    apply (proj1 (surrogate_ranges c)) in Hhigh as Hc.
    apply (proj2 (surrogate_ranges d)) in Hlow as Hd.
    rewrite (proj2 (N.ltb_ge c 128)) by lia.
    rewrite (proj2 (N.ltb_ge c 2048)) by lia.
    rewrite Hlow. cbv zeta.
    destruct (four_bytes c d Hc Hd)
      as (R0 & R1 & R2 & R3 & L0 & L1 & Hcp & Hbig & Ec & Ed).
    cbv zeta in R0, R1, R2, R3, L0, L1, Hcp, Hbig, Ec, Ed.
    split.
    + cbn [app]. rewrite decode_four by assumption.
      rewrite Hcp, Hround. unfold unitsOf.
      rewrite (proj2 (N.ltb_ge _ _)) by exact Hbig.
      cbn [app]. now rewrite Ec, Ed.
    + cbn [app]. repeat (constructor; [lia|]). exact Hbytes.
  - apply andb_true_iff in Hwf as [Hwf Hrest].
    apply andb_true_iff in Hwf as [Hlow Hunit].
    apply negb_true_iff in Hlow. apply N.ltb_lt in Hunit.
    destruct (IH s') as [Hround Hbytes]; [lia | exact Hrest|].
    rewrite Hlow.
    destruct (N.ltb_spec c 128) as [H1 | H1].
    + split; [now rewrite decode_one, Hround | constructor; [lia | exact Hbytes]].
    + destruct (N.ltb_spec c 2048) as [H2 | H2].
      * destruct (two_bytes c) as (R0 & R1 & Ec); [lia|].
        cbv zeta in R0, R1, Ec. cbn [app]. split.
        -- rewrite decode_two by assumption. now rewrite Ec, Hround.
        -- repeat (constructor; [lia|]). exact Hbytes.
      * destruct (three_bytes c) as (R0 & R1 & R2 & L0 & L1 & Ec);
          [lia | now apply not_surrogate |].
        cbv zeta in R0, R1, R2, L0, L1, Ec. cbn [app]. split.
        -- rewrite decode_three by assumption. now rewrite Ec, Hround.
        -- repeat (constructor; [lia|]). exact Hbytes.
Qed.

Lemma wellFormed_units (n : nat) (s : jsstring) :
  (List.length s <= n)%nat -> wellFormed s = true ->
  Forall (fun c => c < 65536) s.
Proof.
  revert s. induction n as [|n IH]; intros s Hlen Hwf.
  { destruct s; [constructor | simpl in Hlen; lia]. }
  destruct s as [|c s']; [constructor|].
  rewrite wellFormed_cons in Hwf. simpl in Hlen.
  destruct (isHighSurrogate c) eqn:Hhigh.
  - destruct s' as [|d s'']; [discriminate|].
    apply andb_true_iff in Hwf as [Hlow Hwf]. simpl in Hlen.
    apply (proj1 (surrogate_ranges c)) in Hhigh.
    apply (proj2 (surrogate_ranges d)) in Hlow.
    constructor; [lia|]. constructor; [lia|]. apply IH; [lia | exact Hwf].
  - apply andb_true_iff in Hwf as [Hwf Hrest].
    apply andb_true_iff in Hwf as [_ Hunit]. apply N.ltb_lt in Hunit.
    constructor; [exact Hunit|]. apply IH; [lia | exact Hrest].
Qed.

(** One step of the loop keeps the kind of a code unit. *)
Lemma xor_step_block (i : nat) (c : N) :
  c < 65536 ->
  fromCharCode (N.lxor c (charCodeAt key (Nat.modulo i (List.length key))))
  / 128 = c / 128.
Proof.
  intros Hc. unfold fromCharCode.
  pose proof (charCodeAt_key_below (Nat.modulo i (List.length key))) as Hk.
  assert (Hk' : charCodeAt key (Nat.modulo i (List.length key)) < 2 ^ 16)
    by (change (2 ^ 16) with 65536; lia).
  pose proof (lxor_below 16 c _ Hc Hk') as H.
  change (2 ^ 16) with 65536 in H.
  rewrite N.mod_small by exact H. now apply lxor_high_bits.
Qed.

Lemma xorLoop_wellFormed (n : nat) (s : jsstring) (i : nat) :
  (List.length s <= n)%nat -> wellFormed s = true ->
  wellFormed (xorLoop i s []) = true.
Proof.
  revert s i. induction n as [|n IH]; intros s i Hlen Hwf.
  { destruct s; [reflexivity | simpl in Hlen; lia]. }
  destruct s as [|c s']; [reflexivity|].
  rewrite wellFormed_cons in Hwf. simpl in Hlen.
  rewrite xorLoop_cons, wellFormed_cons.
  destruct (isHighSurrogate c) eqn:Hhigh.
  - destruct s' as [|d s'']; [discriminate|].
    apply andb_true_iff in Hwf as [Hlow Hwf]. simpl in Hlen.
    apply (proj1 (surrogate_ranges c)) in Hhigh as Hc.
    apply (proj2 (surrogate_ranges d)) in Hlow as Hd.
    rewrite (same_block_high _ c) by (apply xor_step_block; lia).
    rewrite Hhigh, xorLoop_cons.
    rewrite (same_block_low _ d) by (apply xor_step_block; lia).
    rewrite Hlow. apply IH; [lia | exact Hwf].
  - apply andb_true_iff in Hwf as [Hwf Hrest].
    apply andb_true_iff in Hwf as [Hlow Hunit].
    pose proof Hunit as Hc. apply N.ltb_lt in Hc.
    rewrite (same_block_high _ c) by (now apply xor_step_block).
    rewrite Hhigh.
    rewrite (same_block_low _ c) by (now apply xor_step_block).
    rewrite (same_block_unit _ c) by (now apply xor_step_block).
    rewrite Hlow, Hunit. apply IH; [lia | exact Hrest].
Qed.

(** X16. On every well-formed string (code units below 65536, surrogates
    only in high-low pairs) [decode] undoes [encode], whatever characters
    it holds; so do the credentials read back from the file. *)
Theorem codec_roundtrip_wellFormed (s : jsstring) :
  wellFormed s = true ->
  decode (encode s) = s
  /\ (forall password, wellFormed password = true ->
        loadCredentials (Some (saveCredentials s password))
        = Some {| email := s; password := password |}).
Proof.
  assert (Hround : forall t, wellFormed t = true -> decode (encode t) = t).
  { intros t Ht. unfold decode, encode.
    pose proof (xorLoop_wellFormed _ t 0 (le_n _) Ht) as Hx.
    destruct (utf8_roundtrip_bounded _ _ (le_n _) Hx) as [Hutf Hbytes].
    rewrite (base64_roundtrip _ Hbytes), Hutf.
    apply xorLoop_involutive. exact (wellFormed_units _ t (le_n _) Ht). }
  intros Hs. split; [now apply Hround|].
  intros password Hp. unfold loadCredentials, saveCredentials.
  cbn [data_email data_password]. now rewrite !Hround.
Qed.

Lemma codec_roundtrip_wellFormed_witness :
  decode (encode [233; 8364; 55357; 56832; 65])
  = [233; 8364; 55357; 56832; 65].
Proof.
  apply (codec_roundtrip_wellFormed [233; 8364; 55357; 56832; 65]).
  reflexivity.
Defined.

(** A lone surrogate does not survive: it is stored as U+FFFD. *)
Example lone_surrogate_is_lost :
  decode (encode [55357]) = [65419].
Proof. vm_compute. reflexivity. Qed.

(** ** The stored text *)

Lemma base64Char_text (v : N) : v < 64 -> isBase64Text (base64Char v) = true.
Proof.
  intros Hv.
  assert (Hall : forallb (fun w => isBase64Text (base64Char w))
                   (map N.of_nat (seq 0 64)) = true)
    by (vm_compute; reflexivity).
  rewrite forallb_forall in Hall. apply Hall.
  apply in_map_iff. exists (N.to_nat v). split; [apply N2Nat.id|].
  apply in_seq. lia.
Qed.

Lemma quantum_count (n : nat) :
  ((S (S (S n)) + 2) / 3 = S ((n + 2) / 3))%nat.
Proof.
  replace (S (S (S n)) + 2)%nat with (1 * 3 + (n + 2))%nat by lia.
  rewrite Nat.div_add_l by discriminate. lia.
Qed.

(** Base64 text of bytes: only characters of the alphabet and padding, four
    for every three bytes or part of them. *)
Lemma base64Encode_shape (bs : list N) :
  Forall (fun b => b < 256) bs ->
  (forallb isBase64Text (base64Encode bs) = true
   /\ List.length (base64Encode bs)
      = (4 * ((List.length bs + 2) / 3))%nat)
  /\ (forall a, a < 256 ->
        forallb isBase64Text (base64Encode (a :: bs)) = true
        /\ List.length (base64Encode (a :: bs))
           = (4 * ((List.length (a :: bs) + 2) / 3))%nat)
  /\ (forall a b, a < 256 -> b < 256 ->
        forallb isBase64Text (base64Encode (a :: b :: bs)) = true
        /\ List.length (base64Encode (a :: b :: bs))
           = (4 * ((List.length (a :: b :: bs) + 2) / 3))%nat).
Proof.
  induction 1 as [|c bs Hc Hbs IH].
  - split; [now split|]. split.
    + intros a Ha.
      destruct (sextet_bounds a 0 0 Ha) as (S1 & _ & _ & _ & S5 & _);
        try lia.
      cbn [base64Encode forallb].
      rewrite !base64Char_text by assumption. now split.
    + intros a b Ha Hb.
      destruct (sextet_bounds a b 0 Ha Hb) as (S1 & S2 & _ & _ & _ & S6);
        try lia.
      cbn [base64Encode forallb].
      rewrite !base64Char_text by assumption. now split.
  - destruct IH as ((IHtext & IHlen) & IH1 & IH2).
    split; [now apply IH1|]. split; [intros a Ha; now apply IH2|].
    intros a b Ha Hb.
    destruct (sextet_bounds a b c Ha Hb Hc) as (S1 & S2 & S3 & S4 & _).
    cbn [base64Encode app forallb List.length].
    rewrite !base64Char_text by assumption. rewrite IHtext, IHlen.
    split; [reflexivity|].
    rewrite (quantum_count (List.length bs)). lia.
Qed.

(** X21. The stored text of a well-formed string holds only characters of
    the Base64 alphabet and padding; for ASCII text of [n] characters it is
    [4 * ceil(n / 3)] characters long, so it shows the length of the
    secret up to two characters. *)
Theorem stored_text_is_base64 (s : jsstring) :
  (wellFormed s = true -> forallb isBase64Text (encode s) = true)
  /\ (isAscii s ->
      List.length (encode s) = (4 * ((List.length s + 2) / 3))%nat).
Proof.
  unfold encode. split.
  - intros Hwf.
    pose proof (xorLoop_wellFormed _ s 0 (le_n _) Hwf) as Hx.
    destruct (utf8_roundtrip_bounded _ _ (le_n _) Hx) as [_ Hbytes].
    now destruct (base64Encode_shape _ Hbytes) as ((Htext & _) & _).
  - intros Hs. pose proof (xorLoop_ascii 0 s Hs) as Hx.
    rewrite (utf8Encode_ascii _ Hx).
    destruct (base64Encode_shape _ (ascii_is_byte _ Hx)) as ((_ & Hlen) & _).
    now rewrite Hlen, xorLoop_length.
Qed.

End CredentialsMore.

Module BookMetaFacts.
Import JS BookMeta.

Lemma hyphen_isNameChar : isNameChar hyphen = true.
Proof. reflexivity. Qed.

Lemma removeInvalid_valid (s : jsstring) :
  Forall (fun c => isInvalidFilenameChar c = false) (removeInvalid s).
Proof.
  apply Forall_forall. intros c Hin. apply filter_In in Hin as [_ H].
  now apply negb_true_iff.
Qed.

Lemma spacesToHyphen_chars (inRun : bool) (s : jsstring) :
  Forall (fun c => isInvalidFilenameChar c = false) s ->
  Forall (fun c => isNameChar c = true) (spacesToHyphen inRun s).
Proof.
  intros H. revert inRun. induction H as [|c s Hc _ IH]; intros inRun;
    cbn [spacesToHyphen]; [constructor|].
  destruct (isWhiteSpace c) eqn:Hws.
  - destruct inRun; cbn [app]; [apply IH|].
    constructor; [reflexivity | apply IH].
  - constructor; [|apply IH]. unfold isNameChar. now rewrite Hc, Hws.
Qed.

Lemma collapseHyphens_chars (P : N -> Prop) (inRun : bool) (s : jsstring) :
  Forall P s -> Forall P (collapseHyphens inRun s).
Proof.
  intros H. revert inRun. induction H as [|c s Hc _ IH]; intros inRun;
    cbn [collapseHyphens]; [constructor|].
  destruct (N.eqb_spec c hyphen) as [E | _].
  - destruct inRun; cbn [app]; [apply IH|].
    constructor; [now rewrite <- E | apply IH].
  - constructor; [exact Hc | apply IH].
Qed.

Lemma collapseHyphens_runs (inRun : bool) (s : jsstring) :
  noHyphenRun (collapseHyphens inRun s) = true
  /\ (inRun = true -> startsWithHyphen (collapseHyphens inRun s) = false).
Proof.
  revert inRun. induction s as [|c s IH]; intros inRun;
    cbn [collapseHyphens]; [now split|].
  destruct (N.eqb_spec c hyphen) as [E | Hne].
  - destruct (IH true) as [Hrun Hstart]. destruct inRun; cbn [app].
    + split; [exact Hrun | intros _; now apply Hstart].
    + split; [|discriminate]. cbn [noHyphenRun].
      rewrite (Hstart eq_refl), Hrun. now rewrite andb_false_r.
  - destruct (IH false) as [Hrun _]. split.
    + cbn [noHyphenRun]. rewrite Hrun.
      apply N.eqb_neq in Hne. now rewrite Hne.
    + intros _. cbn [startsWithHyphen]. now apply N.eqb_neq.
Qed.

Lemma stripLeading_chars (P : N -> Prop) (s : jsstring) :
  Forall P s -> Forall P (stripLeading s).
Proof.
  intros H. destruct H as [|c s Hc Hs]; cbn [stripLeading]; [constructor|].
  destruct (c =? hyphen)%N; [exact Hs | now constructor].
Qed.

Lemma stripLeading_runs (s : jsstring) :
  noHyphenRun s = true ->
  noHyphenRun (stripLeading s) = true
  /\ startsWithHyphen (stripLeading s) = false.
Proof.
  destruct s as [|c s]; [now split|]. cbn [noHyphenRun stripLeading].
  intros H. apply andb_true_iff in H as [Hhead Hrest].
  destruct (N.eqb_spec c hyphen) as [E | Hne].
  - cbn [andb] in Hhead. apply negb_true_iff in Hhead. now split.
  - apply N.eqb_neq in Hne. split.
    + cbn [noHyphenRun]. now rewrite Hne, Hrest.
    + cbn [startsWithHyphen]. exact Hne.
Qed.

Lemma stripTrailing_chars (P : N -> Prop) (s : jsstring) :
  Forall P s -> Forall P (stripTrailing s).
Proof.
  induction 1 as [|c s Hc Hs IH]; cbn [stripTrailing]; [constructor|].
  destruct s as [|d s'].
  - destruct (c =? hyphen)%N; [constructor | now constructor].
  - now constructor.
Qed.

Lemma stripTrailing_nil_iff (s : jsstring) :
  stripTrailing s = [] <-> s = [] \/ s = [hyphen].
Proof.
  destruct s as [|c [|d s']]; cbn [stripTrailing].
  - tauto.
  - destruct (N.eqb_spec c hyphen) as [-> | Hne].
    + tauto.
    + split; [discriminate | intros [H | H]; congruence].
  - split; [discriminate | intros [H | H]; discriminate].
Qed.

Lemma stripTrailing_start (s : jsstring) :
  startsWithHyphen s = false -> startsWithHyphen (stripTrailing s) = false.
Proof.
  destruct s as [|c [|d s']]; cbn [stripTrailing startsWithHyphen];
    [reflexivity | | tauto].
  intros H. now rewrite H.
Qed.

Lemma stripTrailing_runs (s : jsstring) :
  noHyphenRun s = true -> noHyphenRun (stripTrailing s) = true.
Proof.
  induction s as [|c s IH]; [reflexivity|].
  cbn [noHyphenRun stripTrailing]. intros H.
  apply andb_true_iff in H as [Hhead Hrest].
  destruct s as [|d s'].
  - destruct (c =? hyphen)%N eqn:E; [reflexivity|].
    cbn [noHyphenRun startsWithHyphen]. now rewrite E.
  - cbn [noHyphenRun]. rewrite (IH Hrest), andb_true_r.
    destruct (N.eqb_spec c hyphen) as [E | _]; [|reflexivity].
    cbn [andb] in Hhead |- *. apply negb_true_iff in Hhead.
    now rewrite (stripTrailing_start _ Hhead).
Qed.

Lemma stripTrailing_cons (x y : N) (s : jsstring) :
  stripTrailing (x :: y :: s) = x :: stripTrailing (y :: s).
Proof. reflexivity. Qed.

Lemma stripTrailing_end (s front : jsstring) (c : N) :
  noHyphenRun s = true -> stripTrailing s = front ++ [c] -> c <> hyphen.
Proof.
  revert front. induction s as [|x s IH]; intros front Hrun Hlast.
  - destruct front; discriminate.
  - cbn [noHyphenRun] in Hrun. apply andb_true_iff in Hrun as [Hhead Hrest].
    destruct s as [|y s'].
    + cbn [stripTrailing] in Hlast.
      destruct (N.eqb_spec x hyphen) as [E | Hne].
      * destruct front; discriminate.
      * destruct front as [|f front]; [injection Hlast as <-; exact Hne|].
        destruct front; discriminate.
    + rewrite stripTrailing_cons in Hlast. destruct front as [|f front].
      * cbn [app] in Hlast.
        assert (Hx : x = c) by congruence.
        assert (Hnil : stripTrailing (y :: s') = []) by congruence.
        subst c.
        apply stripTrailing_nil_iff in Hnil as [Hnil | Hnil];
          [discriminate|]. injection Hnil as -> ->.
        cbn in Hhead. intros E. rewrite E in Hhead. discriminate.
      * cbn [app] in Hlast.
        assert (Hlast' : stripTrailing (y :: s') = front ++ [c])
          by congruence.
        now apply (IH front).
Qed.

Lemma firstn_runs (n : nat) (s : jsstring) :
  noHyphenRun s = true -> noHyphenRun (firstn n s) = true.
Proof.
  revert n. induction s as [|c s IH]; intros n; [now destruct n|].
  destruct n as [|n]; [reflexivity|]. cbn [firstn noHyphenRun].
  intros H. apply andb_true_iff in H as [Hhead Hrest].
  rewrite (IH n Hrest), andb_true_r.
  destruct (N.eqb_spec c hyphen) as [E | _]; [|reflexivity].
  cbn [andb] in Hhead |- *. apply negb_true_iff in Hhead.
  destruct s as [|d s']; [now destruct n|].
  destruct n; [reflexivity|]. cbn [firstn startsWithHyphen] in Hhead |- *.
  now rewrite Hhead.
Qed.

Lemma firstn_chars (P : N -> Prop) (n : nat) (s : jsstring) :
  Forall P s -> Forall P (firstn n s).
Proof.
  intros H. revert n. induction H as [|c s Hc _ IH]; intros n;
    destruct n; cbn [firstn]; constructor; auto.
Qed.

(** X17. The file name made of a title has at most 100 characters, none
    of them white space or one of the characters a file name must not
    hold; it has no two hyphens in a row and does not start with a hyphen;
    and it ends with a hyphen at most when it was cut at 100 characters. *)
Theorem sanitized_title_is_a_safe_name (title : jsstring) :
  (List.length (sanitize title) <= 100)%nat
  /\ Forall (fun c => isInvalidFilenameChar c = false
                      /\ isWhiteSpace c = false) (sanitize title)
  /\ noHyphenRun (sanitize title) = true
  /\ startsWithHyphen (sanitize title) = false
  /\ ((List.length (sanitize title) < 100)%nat ->
      forall front c, sanitize title = front ++ [c] -> c <> hyphen).
Proof.
  unfold sanitize, substring100, stripEnds.
  set (collapsed := collapseHyphens false
                      (spacesToHyphen false (removeInvalid title))).
  assert (Hchars : Forall (fun c => isNameChar c = true) collapsed).
  { apply collapseHyphens_chars, spacesToHyphen_chars, removeInvalid_valid. }
  destruct (collapseHyphens_runs false
              (spacesToHyphen false (removeInvalid title))) as [Hruns _].
  fold collapsed in Hruns.
  destruct (stripLeading_runs _ Hruns) as [Hruns' Hstart].
  set (stripped := stripTrailing (stripLeading collapsed)).
  assert (Hs_runs : noHyphenRun stripped = true)
    by now apply stripTrailing_runs.
  assert (Hs_start : startsWithHyphen stripped = false)
    by now apply stripTrailing_start.
  split; [apply firstn_le_length|]. split; [|split; [|split]].
  - apply firstn_chars. unfold stripped.
    apply stripTrailing_chars, stripLeading_chars.
    eapply Forall_impl; [|exact Hchars].
    intros c Hc. unfold isNameChar in Hc.
    apply andb_true_iff in Hc as [H1 H2].
    now rewrite !negb_true_iff in H1, H2.
  - now apply firstn_runs.
  - destruct stripped as [|c rest]; [reflexivity | exact Hs_start].
  - intros Hshort front c Hlast.
    assert (Hall : firstn 100 stripped = stripped).
    { apply firstn_all2.
      destruct (Nat.le_gt_cases (List.length stripped) 100) as [H | H];
        [exact H|].
      rewrite length_firstn, Nat.min_l in Hshort by lia. lia. }
    rewrite Hall in Hlast.
    now apply (stripTrailing_end (stripLeading collapsed) front c).
Qed.

End BookMetaFacts.

Module OrchestratorFacts.
Import JS Downloader DownloaderFacts PrintToPdf PageCapture Orchestrator.


(** The counting evaluate fails on its own: the reader loads, and the run
    ends with the error of the evaluate, after a single navigation. *)
Example detached_reader_throws :
  loadTotalPages Samples.detachedReader initial
  = (Throw (str "Execution context was destroyed"),
     {| opened := 1; trace := [NewPage; Goto] |}).
Proof. reflexivity. Qed.

(** ** The scroll loop *)

Lemma indices_succ (count : nat) (i : N) :
  indices (S count) i = i :: indices count (i + 1).
Proof.
  unfold indices. cbn [seq map]. rewrite N.add_0_r. f_equal.
  rewrite <- seq_shift, map_map. apply map_ext. intros k. lia.
Qed.

(** The loop scrolls the pages in ascending order and stops at the first
    one that fails. *)
Lemma scrollPages_run (w : World) (count : nat) (i : N) (t : list step) :
  exists m,
    m <= count
    /\ snd (scrollPages w count i t) = t ++ map Scroll (indices m i)
    /\ ((fst (scrollPages w count i t) = Normal tt /\ m = count)
        \/ exists e, fst (scrollPages w count i t) = Throw e).
Proof.
  revert i t. induction count as [|count IH]; intros i t.
  - exists 0. cbn. rewrite app_nil_r. auto.
  - cbn [scrollPages]. unfold andThen, call.
    destruct (scroll w i) as [[]|e].
    + destruct (IH (i + 1)%N (t ++ [Scroll i])) as (m & Hm & Htrace & Hres).
      exists (S m). split; [lia|]. rewrite indices_succ. cbn [map].
      split.
      * rewrite Htrace, <- app_assoc. reflexivity.
      * destruct Hres as [[Hok ->] | [e He]]; [left | right; exists e]; auto.
    + exists 1. split; [lia|]. cbn. rewrite N.add_0_r.
      split; [reflexivity|]. right. now exists e.
Qed.

Lemma loadTotalPages_nonzero (r : Reader) (n : N) :
  fst (loadTotalPages r initial) = Normal n -> n <> 0%N.
Proof.
  rewrite loadTotalPages_runs; cbv zeta.
  destruct (navigation r 0) as [u|e0]; [|discriminate].
  destruct (evaluateCount r 0) as [first|c0]; [|discriminate].
  destruct (N.eqb_spec first 0) as [-> | Hfirst].
  - destruct (navigation r 1) as [u'|e1]; [|discriminate].
    destruct (evaluateCount r 1) as [second|c1]; [|discriminate].
    destruct (N.eqb_spec second 0) as [-> | Hsecond]; [discriminate|].
    cbn. congruence.
  - cbn. congruence.
Qed.

Ltac split_in H :=
  repeat match goal with
         | K : In _ (_ ++ _) |- _ => apply in_app_or in K
         | K : In _ (map _ _) |- _ => apply in_map_iff in K
         | K : In _ (_ :: _) |- _ => cbn [In] in K
         | K : In _ [] |- _ => destruct K
         | K : False |- _ => destruct K
         | K : _ \/ _ |- _ => destruct K
         | K : exists _, _ |- _ => destruct K
         | K : _ /\ _ |- _ => destruct K
         end;
  try discriminate.

Ltac body_steps :=
  repeat first
    [ apply Forall_nil
    | apply Forall_cons; [reflexivity|]
    | apply Forall_app; split
    | apply Forall_forall; intros ? Hstep;
      apply in_map_iff in Hstep as (? & <- & _); reflexivity ].

(** Every run of the body, by the first step that fails. *)
Lemma downloadBody_runs (w : World) :
  exists body,
    snd (downloadBody w [Launch]) = Launch :: body
    /\ Forall (fun s => isBodyStep s = true) body
    /\ (In WriteFile body ->
        exists n doc,
          fst (loadTotalPages (reader w) initial) = Normal n
          /\ dims w = Normal doc
          /\ pdf w = Normal tt
          /\ exists rest,
              body = [Login; OpenReader; ReadIframeSrc]
                     ++ map Iframe
                          (trace (snd (loadTotalPages (reader w) initial)))
                     ++ map Scroll (indices (N.to_nat n) 0)
                     ++ [LoadFonts; ResetCss; MeasureDims;
                         Pdf (downloadPdfOptions doc); MkDir; WriteFile]
                     ++ rest).
Proof.
  unfold downloadBody, andThen, call, fail, done, countPagesOf.
  cbn [app].
  destruct (login w) as [[]|e];
    [|eexists; split; [reflexivity|]; split; [body_steps|];
      intros H; split_in H].
  destruct (readerGoto w) as [[]|e];
    [|eexists; split; [reflexivity|]; split; [body_steps|];
      intros H; split_in H].
  destruct (iframeSrc w) as [[url|]|e];
    [ | eexists; split; [reflexivity|]; split; [body_steps|];
        intros H; split_in H
      | eexists; split; [reflexivity|]; split; [body_steps|];
        intros H; split_in H].
  destruct (loadTotalPages (reader w) initial) as [[n|e] s] eqn:Hload;
    cbn [fst snd app];
    [|eexists; split; [reflexivity|]; split; [body_steps|];
      intros H; split_in H].
  destruct (scrollPages_run w (N.to_nat n) 0
              (Launch :: Login :: OpenReader :: ReadIframeSrc
               :: map Iframe (trace s)))
    as (m & Hm & Htrace & Hres).
  destruct (scrollPages w (N.to_nat n) 0
              (Launch :: Login :: OpenReader :: ReadIframeSrc
               :: map Iframe (trace s))) as [scrolled t].
  cbn [fst snd] in Htrace, Hres. subst t.
  destruct Hres as [[-> ->] | [e ->]];
    [|exists (Login :: OpenReader :: ReadIframeSrc
              :: map Iframe (trace s) ++ map Scroll (indices m 0));
      split; [reflexivity|]; split; [body_steps|];
      intros H; split_in H].
  cbn [app].
  destruct (fonts w) as [[]|e];
    [|eexists; split; [rewrite <- !app_assoc; reflexivity|];
      split; [body_steps|]; intros H; split_in H].
  destruct (css w) as [[]|e];
    [|eexists; split; [rewrite <- !app_assoc; reflexivity|];
      split; [body_steps|]; intros H; split_in H].
  destruct (dims w) as [doc|e];
    [|eexists; split; [rewrite <- !app_assoc; reflexivity|];
      split; [body_steps|]; intros H; split_in H].
  destruct (pdf w) as [[]|e];
    [|eexists; split; [rewrite <- !app_assoc; reflexivity|];
      split; [body_steps|]; intros H; split_in H].
  destruct (mkdir w) as [[]|e];
    [|eexists; split; [rewrite <- !app_assoc; reflexivity|];
      split; [body_steps|]; intros H; split_in H].
  destruct (writeFile w) as [[]|e].
  - eexists; split; [rewrite <- !app_assoc; reflexivity|].
    split; [body_steps|]. intros _. exists n, doc.
    repeat split. exists [Stat]. cbn [app]. reflexivity.
  - eexists; split; [rewrite <- !app_assoc; reflexivity|].
    split; [body_steps|]. intros _. exists n, doc.
    repeat split. exists []. cbn [app]. reflexivity.
Qed.

(** X19. Once the browser is launched, every download ends by closing
    it, exactly once and as its last step, whether the body succeeded or
    threw; a failure is logged and thrown again with the same error. *)
Theorem download_closes_browser_last (w : World) :
  exists body,
    Forall (fun s => isBodyStep s = true) body
    /\ ((fst (downloadBook w) = Normal tt
         /\ snd (downloadBook w) = Launch :: body ++ [CloseBrowser])
        \/ exists e,
             fst (downloadBook w) = Throw e
             /\ snd (downloadBook w)
                = Launch :: body ++ [LogError e; CloseBrowser]).
Proof.
  destruct (downloadBody_runs w) as (body & Htrace & Hbody & _).
  exists body. split; [exact Hbody|]. unfold downloadBook.
  destruct (downloadBody w [Launch]) as [[[]|e] t]; cbn [fst snd] in *;
    subst t; [left | right; exists e]; auto.
Qed.

(** X20. The output file is written only after a complete capture: the
    page count was read and is positive, every page from the first to the
    last was scrolled into view in ascending order, the fonts, the styles
    and the page size were handled, and the PDF was printed with the
    options computed from the measured document. *)
Theorem file_written_only_after_full_capture (w : World) :
  In WriteFile (snd (downloadBook w)) ->
  exists n doc rest,
    fst (loadTotalPages (reader w) initial) = Normal n
    /\ n <> 0%N
    /\ dims w = Normal doc
    /\ pdf w = Normal tt
    /\ snd (downloadBook w)
       = [Launch; Login; OpenReader; ReadIframeSrc]
         ++ map Iframe (trace (snd (loadTotalPages (reader w) initial)))
         ++ map Scroll (indices (N.to_nat n) 0)
         ++ [LoadFonts; ResetCss; MeasureDims;
             Pdf (downloadPdfOptions doc); MkDir; WriteFile]
         ++ rest.
Proof.
  destruct (downloadBody_runs w) as (body & Htrace & _ & Hwritten).
  unfold downloadBook.
  destruct (downloadBody w [Launch]) as [[[]|e] t]; cbn [fst snd] in *;
    subst t; intros Hin.
  - destruct Hwritten as (n & doc & Hn & Hdoc & Hpdf & rest & Hbody).
    { cbn [In] in Hin. destruct Hin as [Hin | Hin]; [discriminate|].
      apply in_app_or in Hin as [Hin | Hin]; [exact Hin|].
      cbn [In] in Hin. destruct Hin as [Hin | []]. discriminate. }
    exists n, doc, (rest ++ [CloseBrowser]).
    split; [exact Hn|]. split; [now apply (loadTotalPages_nonzero (reader w))|].
    split; [exact Hdoc|]. split; [exact Hpdf|].
    rewrite Hbody. cbn [app]. rewrite <- !app_assoc. reflexivity.
  - destruct Hwritten as (n & doc & Hn & Hdoc & Hpdf & rest & Hbody).
    { cbn [In] in Hin. destruct Hin as [Hin | Hin]; [discriminate|].
      apply in_app_or in Hin as [Hin | Hin]; [exact Hin|].
      cbn [In] in Hin. destruct Hin as [Hin | [Hin | []]]; discriminate. }
    exists n, doc, (rest ++ [LogError e; CloseBrowser]).
    split; [exact Hn|]. split; [now apply (loadTotalPages_nonzero (reader w))|].
    split; [exact Hdoc|]. split; [exact Hpdf|].
    rewrite Hbody. cbn [app]. rewrite <- !app_assoc. reflexivity.
Qed.

Lemma file_written_only_after_full_capture_witness :
  exists n doc rest,
    fst (loadTotalPages (reader Runs.smooth) initial) = Normal n
    /\ n <> 0%N
    /\ dims Runs.smooth = Normal doc
    /\ pdf Runs.smooth = Normal tt
    /\ snd (downloadBook Runs.smooth)
       = [Launch; Login; OpenReader; ReadIframeSrc]
         ++ map Iframe
              (trace (snd (loadTotalPages (reader Runs.smooth) initial)))
         ++ map Scroll (indices (N.to_nat n) 0)
         ++ [LoadFonts; ResetCss; MeasureDims;
             Pdf (downloadPdfOptions doc); MkDir; WriteFile]
         ++ rest.
Proof.
  apply (file_written_only_after_full_capture Runs.smooth).
  vm_compute. tauto.
Defined.

End OrchestratorFacts.

Module PromptFacts.
Import JS Prompt.

Lemma readPassword_text (chunks later : list jsstring) (password : jsstring) :
  forallb isText chunks = true ->
  readPassword (chunks ++ later) password
  = readPassword later (password ++ List.concat chunks).
Proof.
  revert password. induction chunks as [|c chunks IH]; intros password H.
  - cbn. now rewrite app_nil_r.
  - cbn [forallb] in H. apply andb_true_iff in H as [Hc Hrest].
    unfold isText in Hc. rewrite !andb_true_iff, !negb_true_iff in Hc.
    destruct Hc as [[He Hi] Hb].
    cbn [app readPassword List.concat]. rewrite He, Hi, Hb, IH by exact Hrest.
    now rewrite app_assoc.
Qed.

Lemma removelast_firstn_length (s : jsstring) :
  removelast s = firstn (List.length s - 1) s.
Proof.
  rewrite removelast_firstn_len. f_equal. lia.
Qed.

Lemma readPassword_backspaces (k : nat) (later : list jsstring)
    (password : jsstring) :
  readPassword (repeat [127%N] k ++ later) password
  = readPassword later (firstn (List.length password - k) password).
Proof.
  revert password. induction k as [|k IH]; intros password.
  - cbn [repeat app]. now rewrite Nat.sub_0_r, firstn_all.
  - cbn [repeat app readPassword].
    change (isEnter [127%N]) with false.
    change (isInterrupt [127%N]) with false.
    change (isBackspace [127%N]) with true. cbn iota.
    rewrite IH. f_equal.
    destruct (Nat.ltb_spec 0 (List.length password)) as [Hpos | Hzero].
    + rewrite removelast_firstn_length, firstn_firstn, length_firstn.
      f_equal. lia.
    + f_equal. lia.
Qed.

(** X22. The hidden prompt returns what was typed: after any text chunks,
    [k] presses of backspace, more text and Enter, it resolves to the
    first text without its last [k] code units (nothing is left, and
    nothing fails, when [k] exceeds its length) followed by the second
    text; whatever arrives after Enter is not read. *)
Theorem hidden_prompt_returns_typed_text
    (typed retyped ignored : list jsstring) (k : nat) :
  forallb isText typed = true ->
  forallb isText retyped = true ->
  readPassword (typed ++ repeat [127%N] k ++ retyped ++ [13%N] :: ignored) []
  = Resolved (firstn (List.length (List.concat typed) - k) (List.concat typed)
              ++ List.concat retyped).
Proof.
  intros Htyped Hretyped.
  rewrite (readPassword_text typed) by exact Htyped.
  rewrite readPassword_backspaces, (readPassword_text retyped)
    by exact Hretyped.
  reflexivity.
Qed.

Lemma hidden_prompt_returns_typed_text_witness :
  readPassword [str "s"; str "e"; str "c"; str "x"; [127%N]; str "ret";
                [13%N]; str "late"] []
  = Resolved (str "secret").
Proof.
  apply (hidden_prompt_returns_typed_text
           [str "s"; str "e"; str "c"; str "x"] [str "ret"] [str "late"] 1);
    reflexivity.
Defined.

End PromptFacts.
